(** * Quicksave slots of the Fuse emulator (savestates/savestates.c)

    A shallow embedding of [savestates.c] as built for the Miyoo
    handhelds (the [GCWZERO] and [MIYOO] branches of the preprocessor
    conditionals), followed by the properties established for it.

    Conventions of the embedding.
    - A C string is a [string]: the characters before the terminating
      NUL.  A [char*] that may be [NULL] is an [option string].
    - An [int] is a [Z], with the wrap-around to 32 bits written out
      where the code converts to [int] ([atoi]); a truth value returned
      as an [int] is tested against [0] as in C.
    - The module's file-scope variables and the fields of
      [settings_current] it uses live in one [state] record that the
      stateful functions pass along, together with the state of the
      host and a log of the calls made to the host.
    - Everything the module calls but does not define (the
      compatibility layer, libspectrum, the UI, the emulation core) is a
      field of the [platform] class. *)

From Stdlib Require Import ZArith List String Ascii Bool Lia DecimalString.
From Stdlib Require Import Init.Byte.
From Stdlib Require Import DecimalPos.
Import ListNotations.

Local Open Scope string_scope.
Local Open Scope Z_scope.

Set Implicit Arguments.

(* ================================================================= *)
(** ** The C library functions the module uses *)

Module CStr.

(** The code of a character as an [unsigned char]. *)
Definition code (c : ascii) : Z := Z.of_N (N_of_ascii c).

(** [isdigit] and [isspace] in the "C" locale. *)
Definition isdigit (c : ascii) : bool := (48 <=? code c) && (code c <=? 57).

Definition isspace (c : ascii) : bool :=
  ((9 <=? code c) && (code c <=? 13)) || (code c =? 32).

(** [strrchr s c] for [c] other than NUL: the tail of [s] that starts at
    the last occurrence of [c], or [None] for a null pointer. *)
Fixpoint strrchr (s : string) (c : ascii) : option string :=
  match s with
  | EmptyString => None
  | String a rest =>
      match strrchr rest c with
      | Some tail => Some tail
      | None => if Ascii.eqb a c then Some s else None
      end
  end.

(** [strncmp s1 s2 n]: the difference of the first differing characters
    among the first [n], a missing character counting as NUL. *)
Fixpoint strncmp (s1 s2 : string) (n : nat) : Z :=
  match n with
  | O => 0
  | S n' =>
      match s1, s2 with
      | EmptyString, EmptyString => 0
      | EmptyString, String c2 _ => 0 - code c2
      | String c1 _, EmptyString => code c1
      | String c1 r1, String c2 r2 =>
          if Ascii.eqb c1 c2 then strncmp r1 r2 n' else code c1 - code c2
      end
  end.

(** [strcmp]: [strncmp] without a bound. *)
Fixpoint strcmp (s1 s2 : string) : Z :=
  match s1, s2 with
  | EmptyString, EmptyString => 0
  | EmptyString, String c2 _ => 0 - code c2
  | String c1 _, EmptyString => code c1
  | String c1 r1, String c2 r2 =>
      if Ascii.eqb c1 c2 then strcmp r1 r2 else code c1 - code c2
  end.

(** [atoi( s )] is [(int) strtol( s, NULL, 10 )]: [strtol] skips white
    space, reads an optional sign, then accumulates decimal digits up to
    the first character that is not one, and saturates at [LONG_MIN] and
    [LONG_MAX] (a [long] of 64 bits); the conversion to the 32-bit [int]
    keeps the low 32 bits, in two's complement. *)
Fixpoint atoi_digits (acc : Z) (s : string) : Z :=
  match s with
  | EmptyString => acc
  | String c rest =>
      if isdigit c then atoi_digits (10 * acc + (code c - 48)) rest else acc
  end.

Definition atoi_signed (s : string) : Z :=
  match s with
  | String "-" rest => - atoi_digits 0 rest
  | String "+" rest => atoi_digits 0 rest
  | _ => atoi_digits 0 s
  end.

(** The number the text spells, before any bound applies. *)
Fixpoint strtol_value (s : string) : Z :=
  match s with
  | EmptyString => 0
  | String c rest => if isspace c then strtol_value rest else atoi_signed s
  end.

Definition LONG_MIN : Z := - 2 ^ 63.
Definition LONG_MAX : Z := 2 ^ 63 - 1.

Definition strtol (s : string) : Z :=
  Z.max LONG_MIN (Z.min LONG_MAX (strtol_value s)).

(** The conversion of a [long] to an [int]. *)
Definition int_of_long (n : Z) : Z := (n + 2 ^ 31) mod 2 ^ 32 - 2 ^ 31.

Definition atoi (s : string) : Z := int_of_long (strtol s).

(** The conversion ["%02d"]: the decimal rendering, padded on the left
    with ['0'] up to two characters. *)
Definition fmt_02d (d : Z) : string :=
  let digits := NilZero.string_of_int (Z.to_int d) in
  if (String.length digits <? 2)%nat then String "0" digits else digits.

(** The conversion ["%s"]; glibc prints a null pointer as ["(null)"]. *)
Definition fmt_s (s : option string) : string :=
  match s with
  | Some s => s
  | None => "(null)"
  end.

(** [snprintf( buffer, size, ... )]: of the formatted text [out] at most
    [size - 1] characters reach the buffer. *)
Definition snprintf (size : nat) (out : string) : string :=
  substring 0 (size - 1) out.

(** [memset] and [memcpy] on a buffer held as a list of bytes.  The
    source of [memcpy] is a pointer into memory, given as the function
    from an offset to the byte stored there. *)
Definition memset (buf : list byte) (c : byte) (n : nat) : list byte :=
  repeat c n ++ skipn n buf.

Definition memcpy (dst : list byte) (src : nat -> byte) (n : nat) : list byte :=
  map src (seq 0 n) ++ skipn n dst.

End CStr.

(* ================================================================= *)
(** ** Pattern rules of the Name Sanitizer *)

Module Regex.

(** Extended regular expressions over characters, with a character
    set given by its membership test. *)
Inductive regex : Type :=
| Void : regex
| Eps : regex
| Set_ : (ascii -> bool) -> regex
| Cat : regex -> regex -> regex
| Alt : regex -> regex -> regex
| Star : regex -> regex.

Fixpoint nullable (r : regex) : bool :=
  match r with
  | Void => false
  | Eps => true
  | Set_ _ => false
  | Cat r1 r2 => nullable r1 && nullable r2
  | Alt r1 r2 => nullable r1 || nullable r2
  | Star _ => true
  end.

(** Constructors that drop the branches that can match nothing. *)
Definition cat (r1 r2 : regex) : regex :=
  match r1, r2 with
  | Void, _ => Void
  | _, Void => Void
  | Eps, _ => r2
  | _, _ => Cat r1 r2
  end.

Definition alt (r1 r2 : regex) : regex :=
  match r1, r2 with
  | Void, _ => r2
  | _, Void => r1
  | _, _ => Alt r1 r2
  end.

(** The derivative: what is left of [r] after reading [c]. *)
Fixpoint deriv (c : ascii) (r : regex) : regex :=
  match r with
  | Void => Void
  | Eps => Void
  | Set_ p => if p c then Eps else Void
  | Cat r1 r2 =>
      if nullable r1
      then alt (cat (deriv c r1) r2) (deriv c r2)
      else cat (deriv c r1) r2
  | Alt r1 r2 => alt (deriv c r1) (deriv c r2)
  | Star r1 => cat (deriv c r1) (Star r1)
  end.

(** The length of the longest prefix of [s] that [r] matches. *)
Fixpoint longest_prefix (r : regex) (s : string) : option nat :=
  match s with
  | EmptyString => if nullable r then Some O else None
  | String c rest =>
      match longest_prefix (deriv c r) rest with
      | Some n => Some (S n)
      | None => if nullable r then Some O else None
      end
  end.

(** [regexec]: offset and length of the leftmost match, the longest
    one at that offset. *)
Fixpoint regexec (r : regex) (s : string) : option (nat * nat) :=
  match longest_prefix r s with
  | Some n => Some (O, n)
  | None =>
      match s with
      | EmptyString => None
      | String _ rest =>
          match regexec r rest with
          | Some (off, n) => Some (S off, n)
          | None => None
          end
      end
  end.

(** Removal of every non-overlapping match, left to right: at a
    character where a non-empty match starts, the match is skipped;
    any other character is kept.  [skip] counts the characters of the
    current match still to drop. *)
Fixpoint chop (r : regex) (skip : nat) (s : string) : string :=
  match s with
  | EmptyString => EmptyString
  | String c rest =>
      match skip with
      | S k => chop r k rest
      | O =>
          match longest_prefix r s with
          | Some (S n) => chop r n rest
          | _ => String c (chop r O rest)
          end
      end
  end.

(** Character sets, matched without regard to case. *)
Definition tolower (c : ascii) : ascii :=
  if (65 <=? CStr.code c) && (CStr.code c <=? 90)
  then ascii_of_N (N_of_ascii c + 32)
  else c.

Fixpoint mem_ci (c : ascii) (set : string) : bool :=
  match set with
  | EmptyString => false
  | String a rest => Ascii.eqb (tolower c) (tolower a) || mem_ci c rest
  end.

(** A bracket expression listing its members, such as [[abcd1234]]. *)
Definition one_of (set : string) : regex := Set_ (fun c => mem_ci c set).

(** A literal word, such as [disk]. *)
Fixpoint word (w : string) : regex :=
  match w with
  | EmptyString => Eps
  | String a rest => Cat (one_of (String a EmptyString)) (word rest)
  end.

(** The classes [[:space:]] and [[:punct:]] of the "C" locale. *)
Definition space : regex := Set_ CStr.isspace.

Definition ispunct (c : ascii) : bool :=
  let n := CStr.code c in
  ((33 <=? n) && (n <=? 47)) || ((58 <=? n) && (n <=? 64))
  || ((91 <=? n) && (n <=? 96)) || ((123 <=? n) && (n <=? 126)).

Definition punct : regex := Set_ ispunct.

End Regex.

Import Regex.

(** The one entry of [re_expressions], group by group (a space is
    written between a star and a closing parenthesis):
<<
  ( ([[:space:]]|[-_])* )
  ( ([(]|[[])*[[:space:]]* )
  (disk|tape|side|part)
  ( ([[:space:]]|[[:punct:]])* )
  ( ([abcd1234])([[:space:]]*of[[:space:]]*[1234])* )
  ( [[:space:]]*([)]|[]])* )
  ( ([[:space:]]|[-_])* )
>> *)
Definition re_qualifier : regex :=
  Cat (Star (Alt space (one_of "-_")))
 (Cat (Cat (Star (Alt (one_of "(") (one_of "["))) (Star space))
 (Cat (Alt (word "disk") (Alt (word "tape") (Alt (word "side") (word "part"))))
 (Cat (Star (Alt space punct))
 (Cat (Cat (one_of "abcd1234")
           (Star (Cat (Star space) (Cat (word "of") (Cat (Star space) (one_of "1234"))))))
 (Cat (Cat (Star space) (Star (Alt (one_of ")") (one_of "]"))))
      (Star (Alt space (one_of "-_")))))))).

Definition re_expressions : list regex := [re_qualifier].

(** Modelled from the spec: [compat_chop_expressions], which the
    compatibility layer defines outside this file.  Section 4.1 of the
    specification: the rules are case-insensitive, and the output is the
    name "with every non-overlapping match of the rule set removed,
    left-to-right"; a missing name gives a missing result. *)
Definition compat_chop_expressions (patterns : list regex) (s : option string)
  : option string :=
  match s with
  | None => None
  | Some name => Some (fold_left (fun acc r => chop r O acc) patterns name)
  end.

(* ================================================================= *)
(** ** The host: what the module calls but does not define *)

(** The outcome of [stat( dir, &stat_info )] as [check_dir_exist] reads
    it: success, failure with [errno == ENOENT], any other failure. *)
Inductive stat_result : Type :=
| STAT_OK
| STAT_ENOENT
| STAT_FAILED.

(** [compat_dir_result_t] of compat.h. *)
Inductive compat_dir_result_t : Type :=
| COMPAT_DIR_RESULT_OK
| COMPAT_DIR_RESULT_END
| COMPAT_DIR_RESULT_ERROR.

(** An open directory: what the coming calls of [compat_readdir] will
    deliver, one item per call ([COMPAT_DIR_RESULT_END] once the items
    are used up), and what [compat_closedir] will return. *)
Inductive dir_item : Type :=
| Dir_name (name : string)
| Dir_ioerror.

Record compat_dir : Type := {
  dir_items : list dir_item;
  dir_close : Z
}.

Definition compat_readdir (d : compat_dir)
  : compat_dir_result_t * string * compat_dir :=
  match dir_items d with
  | [] => (COMPAT_DIR_RESULT_END, "", d)
  | Dir_name name :: rest =>
      (COMPAT_DIR_RESULT_OK, name, {| dir_items := rest; dir_close := dir_close d |})
  | Dir_ioerror :: rest =>
      (COMPAT_DIR_RESULT_ERROR, "", {| dir_items := rest; dir_close := dir_close d |})
  end.

Definition compat_closedir (d : compat_dir) : Z := dir_close d.

(** [libspectrum_machine] of libspectrum.h. *)
Inductive libspectrum_machine : Type :=
| LIBSPECTRUM_MACHINE_48
| LIBSPECTRUM_MACHINE_TC2048
| LIBSPECTRUM_MACHINE_128
| LIBSPECTRUM_MACHINE_PLUS2
| LIBSPECTRUM_MACHINE_PENT
| LIBSPECTRUM_MACHINE_PLUS2A
| LIBSPECTRUM_MACHINE_PLUS3
| LIBSPECTRUM_MACHINE_UNKNOWN
| LIBSPECTRUM_MACHINE_16
| LIBSPECTRUM_MACHINE_TC2068
| LIBSPECTRUM_MACHINE_SCORP
| LIBSPECTRUM_MACHINE_PLUS3E
| LIBSPECTRUM_MACHINE_SE
| LIBSPECTRUM_MACHINE_TS2068
| LIBSPECTRUM_MACHINE_PENT512
| LIBSPECTRUM_MACHINE_PENT1024
| LIBSPECTRUM_MACHINE_48_NTSC
| LIBSPECTRUM_MACHINE_128E.

(** A [libspectrum_snap], through the three accessors the module uses.
    [libspectrum_snap_pages snap page] is a pointer to the bytes of a
    memory page: the function from an offset to the byte there. *)
Record libspectrum_snap : Type := {
  libspectrum_snap_machine : libspectrum_machine;
  libspectrum_snap_out_128_memoryport : Z;
  libspectrum_snap_pages : Z -> nat -> byte
}.

(** [utils_file]: a buffer and its length. *)
Record utils_file : Type := {
  buffer : list byte;
  length : Z
}.

Class platform : Type := {
  (** the state of everything outside this module *)
  host : Type;
  (** the global [last_filename] *)
  last_filename : host -> option string;
  compat_get_config_path : host -> option string;
  (** [libspectrum_machine_name( machine_current->machine )] *)
  current_machine_name : host -> string;
  stat : host -> string -> stat_result;
  (** [strerror( errno )] after a failed [stat] *)
  strerror_errno : host -> string;
  compat_file_exists : host -> string -> bool;
  compat_createdir : string -> host -> Z * host;
  compat_opendir : host -> string -> option compat_dir;
  (** [utils_last_filename( filename, without_extension )] *)
  utils_last_filename : option string -> Z -> option string;
  utils_open_file : string -> Z -> host -> Z * host;
  snapshot_write : string -> host -> Z * host;
  (** [utils_read_file]: the error code and the bytes read *)
  utils_read_file : host -> string -> Z * list byte;
  libspectrum_snap_alloc : libspectrum_snap;
  (** [libspectrum_snap_read( snap, buffer, length, LIBSPECTRUM_ID_UNKNOWN, filename )] *)
  libspectrum_snap_read : libspectrum_snap -> list byte -> string -> Z * libspectrum_snap;
  libspectrum_snap_free : libspectrum_snap -> Z;
  (** the bytes found in freshly allocated memory *)
  fresh_memory : nat -> byte
}.

(** Modelled from the spec: [PATH_MAX], the "platform max path" of
    section 4.2, which <limits.h> defines; 4096 is its value on Linux. *)
Definition PATH_MAX : nat := 4096.

(** Modelled from the spec: [FUSE_DIR_SEP_STR] of compat.h, the
    separator of the file system layout in section 6. *)
Definition FUSE_DIR_SEP_STR : string := "/".

(** The fields of [settings_current] the module uses. *)
Record settings_info : Type := {
  od_quicksave_per_machine : Z;
  od_quicksave_format : string;
  od_quicksave_slot : Z
}.

(** The calls to the host that change or show something, in the order
    they are logged. *)
Inductive call : Type :=
| Call_utils_open_file (filename : string) (autoload : Z)
| Call_snapshot_write (filename : string)
| Call_compat_createdir (dir : string)
| Call_compat_opendir (dir : string)
| Call_compat_closedir
| Call_ui_error (message : string)
| Call_ui_widget_show_msg_update_info (message : string)
| Call_fuse_emulation_pause
| Call_fuse_emulation_unpause
| Call_display_refresh_all.

(* ================================================================= *)
(** ** A state monad for the stateful functions *)

Definition M (S A : Type) : Type := S -> A * S.

Definition ret {S A : Type} (a : A) : M S A := fun st => (a, st).

Definition bind {S A B : Type} (m : M S A) (k : A -> M S B) : M S B :=
  fun st => let (a, st') := m st in k a st'.

Definition gets {S A : Type} (f : S -> A) : M S A := fun st => (f st, st).

Definition modify {S : Type} (f : S -> S) : M S unit := fun st => (tt, f st).

Declare Scope monad_scope.
Delimit Scope monad_scope with monad.
Notation "x <- m ;; k" := (bind m (fun x => k))
  (at level 61, m at next level, right associativity) : monad_scope.
Notation "m ;; k" := (bind m (fun _ => k))
  (at level 61, right associativity) : monad_scope.

Local Open Scope monad_scope.

(* ================================================================= *)
(** ** The module *)

Section Savestates.

Context {P : platform}.

(** The file-scope variables [last_check_directory] and
    [last_check_directory_result], [settings_current], the host, and
    the log of calls (oldest first). *)
Record state : Type := {
  host_state : host;
  settings_current : settings_info;
  last_check_directory : option string;
  last_check_directory_result : Z;
  calls : list call
}.

Definition log (c : call) : M state unit :=
  modify (fun st =>
    {| host_state := host_state st;
       settings_current := settings_current st;
       last_check_directory := last_check_directory st;
       last_check_directory_result := last_check_directory_result st;
       calls := calls st ++ [c] |}).

(** A call that the host answers and that may change the host. *)
Definition host_call {A : Type} (c : call) (f : host -> A * host) : M state A :=
  fun st =>
    let (a, h) := f (host_state st) in
    (a, {| host_state := h;
           settings_current := settings_current st;
           last_check_directory := last_check_directory st;
           last_check_directory_result := last_check_directory_result st;
           calls := calls st ++ [c] |}).

Definition set_od_quicksave_slot (slot : Z) : M state unit :=
  modify (fun st =>
    {| host_state := host_state st;
       settings_current :=
         {| od_quicksave_per_machine := od_quicksave_per_machine (settings_current st);
            od_quicksave_format := od_quicksave_format (settings_current st);
            od_quicksave_slot := slot |};
       last_check_directory := last_check_directory st;
       last_check_directory_result := last_check_directory_result st;
       calls := calls st |}).

Definition set_last_check_directory (dir : option string) : M state unit :=
  modify (fun st =>
    {| host_state := host_state st;
       settings_current := settings_current st;
       last_check_directory := dir;
       last_check_directory_result := last_check_directory_result st;
       calls := calls st |}).

Definition set_last_check_directory_result (r : Z) : M state unit :=
  modify (fun st =>
    {| host_state := host_state st;
       settings_current := settings_current st;
       last_check_directory := last_check_directory st;
       last_check_directory_result := r;
       calls := calls st |}).

(** [filename[i]]; the character past the end is the terminating NUL. *)
Definition char_at (s : string) (i : nat) : ascii :=
  match String.get i s with
  | Some c => c
  | None => Ascii.zero
  end.

Definition check_dir_exist (st : state) (dir : option string) : Z :=
  match dir with
  | None => -1
  | Some dir =>
      match stat (host_state st) dir with
      | STAT_OK => 1
      | STAT_ENOENT => 0
      | STAT_FAILED => -1
      end
  end.

Definition quicksave_get_current_program (st : state) : option string :=
  match last_filename (host_state st) with
  | None => None
  | Some name =>
      compat_chop_expressions re_expressions (utils_last_filename (Some name) 1)
  end.

Definition quicksave_get_current_dir (st : state) : option string :=
  match last_filename (host_state st) with
  | None => None
  | Some _ =>
      match compat_get_config_path (host_state st) with
      | None => None
      | Some cfgdir =>
          let filename := quicksave_get_current_program st in
          let buffer :=
            if od_quicksave_per_machine (settings_current st) =? 0
            then CStr.snprintf PATH_MAX
                   (cfgdir ++ FUSE_DIR_SEP_STR ++ "savestates" ++ FUSE_DIR_SEP_STR
                      ++ CStr.fmt_s filename)
            else CStr.snprintf PATH_MAX
                   (cfgdir ++ FUSE_DIR_SEP_STR ++ "savestates" ++ FUSE_DIR_SEP_STR
                      ++ current_machine_name (host_state st) ++ FUSE_DIR_SEP_STR
                      ++ CStr.fmt_s filename) in
          Some buffer
      end
  end.

Definition quicksave_get_filename (st : state) (slot : Z) : option string :=
  match quicksave_get_current_dir st with
  | None => None
  | Some current_dir =>
      Some (CStr.snprintf PATH_MAX
              (current_dir ++ FUSE_DIR_SEP_STR ++ CStr.fmt_02d slot
                 ++ od_quicksave_format (settings_current st)))
  end.

Definition check_current_savestate_exist (st : state) (slot : Z) : Z :=
  match quicksave_get_filename st slot with
  | Some filename => if compat_file_exists (host_state st) filename then 1 else 0
  | None => 0
  end.

Definition check_if_savestate_possible (st : state) : Z :=
  match quicksave_get_current_program st with
  | Some _ => 1
  | None => 0
  end.

Definition quicksave_create_dir : M state Z :=
  savestate_dir <- gets quicksave_get_current_dir ;;
  match savestate_dir with
  | None => ret 1
  | Some dir =>
      exist <- gets (fun st => check_dir_exist st (Some dir)) ;;
      if exist =? 0 then
        made <- host_call (Call_compat_createdir dir) (compat_createdir dir) ;;
        if made =? -1 then
          log (Call_ui_error ("error creating savestate directory '" ++ dir ++ "'")) ;;
          ret 1
        else ret 0
      else if exist =? -1 then
        reason <- gets (fun st => strerror_errno (host_state st)) ;;
        log (Call_ui_error ("couldn't stat '" ++ dir ++ "': " ++ reason)) ;;
        ret 1
      else ret 0
  end.

Definition savestate_write_internal (slot : Z) : M state Z :=
  filename <- gets (fun st => quicksave_get_filename st slot) ;;
  match filename with
  | None => ret 1
  | Some filename =>
      failed <- quicksave_create_dir ;;
      if negb (failed =? 0) then ret 1
      else
        error <- host_call (Call_snapshot_write filename) (snapshot_write filename) ;;
        (if negb (error =? 0)
         then log (Call_ui_error ("Error saving state to slot " ++ CStr.fmt_02d slot))
         else log (Call_ui_widget_show_msg_update_info
                     ("Saved to slot " ++ CStr.fmt_02d slot))) ;;
        ret error
  end.

Definition savestate_read_internal (slot : Z) : M state Z :=
  exist <- gets (fun st => check_current_savestate_exist st slot) ;;
  if exist =? 0 then ret 1
  else
    filename <- gets (fun st => quicksave_get_filename st slot) ;;
    match filename with
    | None => ret 1
    | Some filename =>
        error <- host_call (Call_utils_open_file filename 9)
                           (utils_open_file filename 9) ;;
        (if negb (error =? 0)
         then log (Call_ui_error ("Error loading state from slot " ++ CStr.fmt_02d slot))
         else log (Call_ui_widget_show_msg_update_info
                     ("Loaded slot " ++ CStr.fmt_02d slot))) ;;
        ret error
    end.

Definition is_savestate_name (st : state) (name : option string) : Z :=
  match name with
  | None => 0
  | Some _ =>
      match utils_last_filename name 0 with
      | None => 0
      | Some filename =>
          (* nn.xxx *)
          if negb (String.length filename =? 6)%nat then 0
          else
            match CStr.strrchr filename "." with
            | Some extension =>
                if negb (CStr.strncmp extension
                           (od_quicksave_format (settings_current st)) 4 =? 0)
                then 0
                else if negb (CStr.isdigit (char_at filename 0))
                        || negb (CStr.isdigit (char_at filename 1))
                then 0
                else 1
            | None => 0
            end
      end
  end.

(** The [while( !done )] loop of [scan_directory_for_savestates], over
    the items the directory still has to deliver: [Some exist] (the value
    of the variable [exist]) when the
    loop ends with [done] set, [None] when it leaves through the
    [COMPAT_DIR_RESULT_ERROR] case. *)
Fixpoint scan_loop (check_fn : option string -> Z) (items : list dir_item)
  : option Z :=
  match items with
  | [] => Some 0
  | Dir_name name :: rest =>
      if negb (check_fn (Some name) =? 0) then Some 1 else scan_loop check_fn rest
  | Dir_ioerror :: _ => None
  end.

Definition scan_directory_for_savestates
    (dir : option string) (check_fn : option string -> Z) : M state Z :=
  match dir with
  | None => ret 0
  | Some dir =>
      directory <- host_call (Call_compat_opendir dir)
                     (fun h => (compat_opendir h dir, h)) ;;
      match directory with
      | None => ret 0
      | Some directory =>
          match scan_loop check_fn (dir_items directory) with
          | None =>
              log Call_compat_closedir ;;
              ret 0
          | Some exists_ =>
              log Call_compat_closedir ;;
              if negb (compat_closedir directory =? 0) then ret 0 else ret exists_
          end
      end
  end.

Definition savetate_read_snapshot
    (st : state) (snapshot : option string) (snap : libspectrum_snap)
  : Z * libspectrum_snap :=
  match snapshot with
  | None => (1, snap)
  | Some filename =>
      if negb (compat_file_exists (host_state st) filename) then (1, snap)
      else
        let (error, bytes) := utils_read_file (host_state st) filename in
        if negb (error =? 0) then (error, snap)
        else libspectrum_snap_read snap bytes filename
  end.

(** The page the display is read from. *)
Definition screen_page (snap : libspectrum_snap) : Z :=
  match libspectrum_snap_machine snap with
  | LIBSPECTRUM_MACHINE_PENT
  | LIBSPECTRUM_MACHINE_PENT512
  | LIBSPECTRUM_MACHINE_PENT1024
  | LIBSPECTRUM_MACHINE_SCORP
  | LIBSPECTRUM_MACHINE_PLUS3E
  | LIBSPECTRUM_MACHINE_PLUS2A
  | LIBSPECTRUM_MACHINE_PLUS3
  | LIBSPECTRUM_MACHINE_PLUS2
  | LIBSPECTRUM_MACHINE_128
  | LIBSPECTRUM_MACHINE_128E
  | LIBSPECTRUM_MACHINE_SE =>
      if negb (Z.land (libspectrum_snap_out_128_memoryport snap) 8 =? 0)
      then 7 else 5
  | _ => 5
  end.

(** [libspectrum_new( unsigned char, n )]. *)
Definition libspectrum_new (n : nat) : list byte := map fresh_memory (seq 0 n).

(** The result is the error code together with [*screen] as the
    function leaves it. *)
Definition savestate_get_screen_for_slot (st : state) (slot : Z)
  : Z * utils_file :=
  (* Initialize screenshot to black *)
  let screen_length := 6912 in
  let screen_buffer := libspectrum_new (Z.to_nat screen_length) in
  let screen_buffer := CStr.memset screen_buffer x00 (Z.to_nat screen_length) in
  let savestate := quicksave_get_filename st slot in
  let snap := libspectrum_snap_alloc in
  let (error, snap) := savetate_read_snapshot st savestate snap in
  if negb (error =? 0)
  then (error, {| buffer := screen_buffer; length := screen_length |})
  else
    let page := screen_page snap in
    let screen_buffer :=
      CStr.memcpy screen_buffer (libspectrum_snap_pages snap page)
        (Z.to_nat screen_length) in
    let error := libspectrum_snap_free snap in
    if negb (error =? 0)
    then (error, {| buffer := screen_buffer; length := screen_length |})
    else (0, {| buffer := screen_buffer; length := screen_length |}).

Definition check_any_savestate_exist : M state Z :=
  savestate_dir <- gets quicksave_get_current_dir ;;
  match savestate_dir with
  | None => ret 0
  | Some dir =>
      exist <- gets (fun st => check_dir_exist st (Some dir)) ;;
      if exist =? 0 then ret 0
      else
        last <- gets last_check_directory ;;
        result <- gets last_check_directory_result ;;
        (* Is directory previously checked? *)
        (if match last with
            | None => true
            | Some last => negb (CStr.strcmp dir last =? 0)
            end
         then
           set_last_check_directory (Some dir) ;;
           set_last_check_directory_result 0
         (* If directory contain savestates previously *)
         else if result =? 0 then
           now <- gets (fun st => st) ;;
           found <- scan_directory_for_savestates (Some dir) (is_savestate_name now) ;;
           set_last_check_directory_result found
         else ret tt) ;;
        gets last_check_directory_result
  end.

Definition quicksave_load : M state Z :=
  slot <- gets (fun st => od_quicksave_slot (settings_current st)) ;;
  exist <- gets (fun st => check_current_savestate_exist st slot) ;;
  (* If don't exist savestate return but don't mark error *)
  if exist =? 0 then ret 0
  else
    log Call_fuse_emulation_pause ;;
    slot <- gets (fun st => od_quicksave_slot (settings_current st)) ;;
    error <- savestate_read_internal slot ;;
    log Call_display_refresh_all ;;
    log Call_fuse_emulation_unpause ;;
    ret error.

Definition quicksave_save : M state Z :=
  log Call_fuse_emulation_pause ;;
  slot <- gets (fun st => od_quicksave_slot (settings_current st)) ;;
  error <- savestate_write_internal slot ;;
  log Call_fuse_emulation_unpause ;;
  ret error.

Definition savestate_read (savestate : option string) : M state Z :=
  match utils_last_filename savestate 1 with
  | None => ret 1
  | Some slot =>
      set_od_quicksave_slot (CStr.atoi slot) ;;
      slot <- gets (fun st => od_quicksave_slot (settings_current st)) ;;
      savestate_read_internal slot
  end.

Definition savestate_write (savestate : option string) : M state Z :=
  match utils_last_filename savestate 1 with
  | None => ret 1
  | Some slot =>
      set_od_quicksave_slot (CStr.atoi slot) ;;
      slot <- gets (fun st => od_quicksave_slot (settings_current st)) ;;
      savestate_write_internal slot
  end.

End Savestates.

(* ================================================================= *)
(** ** The remaining functions of the module *)

Section MoreSavestates.

Context {P : platform}.

(** [memcpy( &(label[18]), ">\0", 2 )] on the string held in the buffer
    of 20 characters that [snprintf] has filled: a string that reaches
    position 18 becomes its first 18 characters and the mark; in a
    shorter one the two bytes land behind the terminating NUL and the
    string is as before. *)
Definition store_mark (label : string) : string :=
  if (18 <=? String.length label)%nat
  then substring 0 18 label ++ ">"
  else label.

Definition quicksave_get_label (st : state) (slot : Z) : option string :=
  match quicksave_get_current_program st with
  | None => None
  | Some current_program =>
      match utils_last_filename (quicksave_get_filename st slot) 1 with
      | None => None
      | Some filename =>
          let label := CStr.snprintf 20 (filename ++ ": " ++ current_program) in
          if (15 <? String.length current_program)%nat
          then Some (store_mark label)
          else Some label
      end
  end.

(** The result is [None] where the function hands [atoi] a null
    pointer, which C leaves undefined. *)
Definition check_current_savestate_exist_savename
    (st : state) (savename : option string) : option Z :=
  match savename with
  | None => Some 0
  | Some _ =>
      match utils_last_filename savename 1 with
      | None => None
      | Some cslot => Some (check_current_savestate_exist st (CStr.atoi cslot))
      end
  end.

(** A call made while the Save Directory is prepared. *)
Definition setup_call (c : call) : Prop :=
  match c with
  | Call_compat_createdir _ | Call_ui_error _ => True
  | _ => False
  end.

(** The message shown after [utils_open_file], and after
    [snapshot_write], has returned [error]. *)
Definition load_report (slot error : Z) : call :=
  if negb (error =? 0)
  then Call_ui_error ("Error loading state from slot " ++ CStr.fmt_02d slot)
  else Call_ui_widget_show_msg_update_info ("Loaded slot " ++ CStr.fmt_02d slot).

Definition save_report (slot error : Z) : call :=
  if negb (error =? 0)
  then Call_ui_error ("Error saving state to slot " ++ CStr.fmt_02d slot)
  else Call_ui_widget_show_msg_update_info ("Saved to slot " ++ CStr.fmt_02d slot).

(** What a scan returns, given what [compat_opendir] returned. *)
Definition scan_value (opened : option compat_dir) (check_fn : option string -> Z) : Z :=
  match opened with
  | None => 0
  | Some d =>
      match scan_loop check_fn (dir_items d) with
      | None => 0
      | Some found => if compat_closedir d =? 0 then found else 0
      end
  end.

(** A call that opens or closes a directory. *)
Definition directory_call (c : call) : Prop :=
  match c with
  | Call_compat_opendir _ | Call_compat_closedir => True
  | _ => False
  end.

(** A call that pauses or resumes the emulation. *)
Definition pause_call (c : call) : Prop :=
  match c with
  | Call_fuse_emulation_pause | Call_fuse_emulation_unpause => True
  | _ => False
  end.

End MoreSavestates.

(* ================================================================= *)
(** ** The shape of a slot file, in the words of the specification *)

(** Section 4.4: the base name's length is 2 plus the length of the
    extension, its first two characters are ASCII digits, and the
    characters after them equal the extension exactly. *)
Definition slot_file_shape (extension base : string) : Prop :=
  String.length base = (2 + String.length extension)%nat /\
  CStr.isdigit (char_at base 0) = true /\
  CStr.isdigit (char_at base 1) = true /\
  substring 2 (String.length extension) base = extension.

(** The zero-padded two-digit decimal rendering of a slot. *)
Definition two_digits (slot : Z) : string :=
  String (ascii_of_N (Z.to_N (48 + slot / 10)))
    (String (ascii_of_N (Z.to_N (48 + slot mod 10))) EmptyString).

(** An extension of the form [.xxx]: a dot and three more characters,
    none of them a dot (nor, in a C string, NUL). *)
Definition dotted_extension (extension : string) : Prop :=
  exists a b c : ascii,
    extension = String "." (String a (String b (String c EmptyString))) /\
    a <> "."%char /\ b <> "."%char /\ c <> "."%char /\
    a <> Ascii.zero /\ b <> Ascii.zero /\ c <> Ascii.zero.

(* ================================================================= *)
(** ** Notions used to state the properties *)

(** The text [atoi] starts to read digits from: past the white space
    and past one sign. *)
Fixpoint skip_space (s : string) : string :=
  match s with
  | EmptyString => EmptyString
  | String c rest => if CStr.isspace c then skip_space rest else s
  end.

Definition skip_sign (s : string) : string :=
  match s with
  | String "-" rest => rest
  | String "+" rest => rest
  | _ => s
  end.

(** No digit follows the optional white space and sign. *)
Definition no_digits_to_read (base : string) : Prop :=
  match skip_sign (skip_space base) with
  | EmptyString => True
  | String c _ => CStr.isdigit c = false
  end.

(** The machines with the 128K paging register: the Pentagon variants,
    the Scorpion, the +2, +2A, +3 and +3E, the 128 and 128E, the SE. *)
Definition paging_family (machine : libspectrum_machine) : bool :=
  match machine with
  | LIBSPECTRUM_MACHINE_PENT | LIBSPECTRUM_MACHINE_PENT512
  | LIBSPECTRUM_MACHINE_PENT1024 => true
  | LIBSPECTRUM_MACHINE_SCORP => true
  | LIBSPECTRUM_MACHINE_PLUS2 | LIBSPECTRUM_MACHINE_PLUS2A
  | LIBSPECTRUM_MACHINE_PLUS3 | LIBSPECTRUM_MACHINE_PLUS3E => true
  | LIBSPECTRUM_MACHINE_128 | LIBSPECTRUM_MACHINE_128E => true
  | LIBSPECTRUM_MACHINE_SE => true
  | _ => false
  end.

(** The display page of a snapshot, in the words of section 4.7. *)
Definition display_page (snap : libspectrum_snap) : Z :=
  if paging_family (libspectrum_snap_machine snap)
  then if Z.testbit (libspectrum_snap_out_128_memoryport snap) 3 then 7 else 5
  else 5.

(** The size of a Spectrum screen, as a number of list elements. *)
Definition screen_size : nat := Z.to_nat 6912.

(* ================================================================= *)
(** ** The grammar of a qualifier *)

(** The language of a rule: the texts it matches in full. *)
Inductive lang : regex -> string -> Prop :=
| lang_eps : lang Eps EmptyString
| lang_set (p : ascii -> bool) (c : ascii) :
    p c = true -> lang (Set_ p) (String c EmptyString)
| lang_cat (r1 r2 : regex) (s1 s2 : string) :
    lang r1 s1 -> lang r2 s2 -> lang (Cat r1 r2) (s1 ++ s2)
| lang_alt_l (r1 r2 : regex) (s : string) : lang r1 s -> lang (Alt r1 r2) s
| lang_alt_r (r1 r2 : regex) (s : string) : lang r2 s -> lang (Alt r1 r2) s
| lang_star_nil (r : regex) : lang (Star r) EmptyString
| lang_star_app (r : regex) (s1 s2 : string) :
    lang r s1 -> lang (Star r) s2 -> lang (Star r) (s1 ++ s2).

Fixpoint all_chars (p : ascii -> bool) (s : string) : bool :=
  match s with
  | EmptyString => true
  | String c rest => p c && all_chars p rest
  end.

(** [spells w k]: the text [k] is the word [w], in any case. *)
Fixpoint spells (w k : string) : bool :=
  match w, k with
  | EmptyString, EmptyString => true
  | String a w', String b k' => mem_ci b (String a EmptyString) && spells w' k'
  | _, _ => false
  end.

(** White space, a hyphen or an underscore. *)
Definition is_lead (c : ascii) : bool := CStr.isspace c || mem_ci c "-_".

(** An opening bracket. *)
Definition is_opening (c : ascii) : bool := mem_ci c "(" || mem_ci c "[".

(** White space or punctuation. *)
Definition is_separator (c : ascii) : bool := CStr.isspace c || ispunct c.

(** A closing bracket. *)
Definition is_closing (c : ascii) : bool := mem_ci c ")" || mem_ci c "]".

(** One of the words disk, tape, side, part, in any case. *)
Definition is_keyword (k : string) : bool :=
  spells "disk" k || spells "tape" k || spells "side" k || spells "part" k.

(** Any number of groups "of <n>", with <n> from 1 to 4 and optional
    white space before the word and before the number. *)
Inductive of_groups : string -> Prop :=
| of_groups_none : of_groups EmptyString
| of_groups_more (before word between : string) (n : ascii) (more : string) :
    all_chars CStr.isspace before = true ->
    spells "of" word = true ->
    all_chars CStr.isspace between = true ->
    mem_ci n "1234" = true ->
    of_groups more ->
    of_groups (before ++ word ++ between ++ String n more).

(** A disk/tape/side/part qualifier, part by part as section 4.1 of the
    specification lists them: leading white space, hyphens and
    underscores; opening brackets and white space; the keyword;
    separators; the identifier (a to d or 1 to 4) with its "of <n>"
    groups; white space and closing brackets; trailing white space,
    hyphens and underscores. *)
Definition qualifier (q : string) : Prop :=
  exists (lead opening indent keyword separators : string) (id : ascii)
         (ofs gap closing trail : string),
    q = lead ++ (opening ++ indent) ++ keyword ++ separators
          ++ String id ofs ++ (gap ++ closing) ++ trail
    /\ all_chars is_lead lead = true
    /\ all_chars is_opening opening = true
    /\ all_chars CStr.isspace indent = true
    /\ is_keyword keyword = true
    /\ all_chars is_separator separators = true
    /\ mem_ci id "abcd1234" = true
    /\ of_groups ofs
    /\ all_chars CStr.isspace gap = true
    /\ all_chars is_closing closing = true
    /\ all_chars is_lead trail = true.


(** The title ends with white space, a hyphen, an underscore or an
    opening bracket. *)
Fixpoint ends_open (title : string) : bool :=
  match title with
  | EmptyString => false
  | String c rest =>
      match rest with
      | EmptyString => is_lead c || is_opening c
      | String _ _ => ends_open rest
      end
  end.






Section Notions.

Context {P : platform}.

Definition with_slot (st : state) (slot : Z) : state :=
  {| host_state := host_state st;
     settings_current :=
       {| od_quicksave_per_machine := od_quicksave_per_machine (settings_current st);
          od_quicksave_format := od_quicksave_format (settings_current st);
          od_quicksave_slot := slot |};
     last_check_directory := last_check_directory st;
     last_check_directory_result := last_check_directory_result st;
     calls := calls st |}.

Definition rejects (check_fn : option string -> Z) (name : string) : Prop :=
  check_fn (Some name) = 0.

(** The snapshot of a slot cannot be had: the path of the Save File
    does not resolve, the file does not exist, it cannot be read, or it
    cannot be parsed. *)
Definition snapshot_unavailable (st : state) (slot : Z) : Prop :=
  match quicksave_get_filename st slot with
  | None => True
  | Some filename =>
      compat_file_exists (host_state st) filename = false
      \/ fst (utils_read_file (host_state st) filename) <> 0
      \/ fst (libspectrum_snap_read libspectrum_snap_alloc
                (snd (utils_read_file (host_state st) filename)) filename) <> 0
  end.

End Notions.

(* ================================================================= *)
(** ** A small host to run the module on *)

Module Demo.

(** Modelled from the spec: [utils_last_filename], defined in utils.c
    outside this file.  It strips the path components (section 4.4)
    and, when [without_extension] is set, the extension too. *)
Definition last_filename_of (filename : option string) (without_extension : Z)
  : option string :=
  match filename with
  | None => None
  | Some path =>
      let base :=
        match CStr.strrchr path "/" with
        | Some (String _ tail) => tail
        | _ => path
        end in
      if without_extension =? 0 then Some base
      else
        match CStr.strrchr base "." with
        | Some ext =>
            Some (substring 0 (String.length base - String.length ext) base)
        | None => Some base
        end
  end.

(** A host with a program name, a configuration directory, a list of
    files with their contents and a list of directories. *)
Record demo_host : Type := {
  demo_last_filename : option string;
  demo_config_path : option string;
  demo_files : list (string * list byte);
  demo_dirs : list (string * compat_dir);
  demo_open_error : Z;
  demo_write_error : Z
}.

Fixpoint lookup {A : Type} (key : string) (table : list (string * A)) : option A :=
  match table with
  | [] => None
  | (k, v) :: rest => if String.eqb key k then Some v else lookup key rest
  end.

(** A two-byte snapshot format: the first byte chooses the machine
    (zero for the 48K, anything else for the 128K), the second is the
    paging register.  Page [n] is filled with the byte [n]. *)
Definition demo_page (page : Z) (offset : nat) : byte :=
  match Byte.of_N (Z.to_N page) with
  | Some b => b
  | None => x00
  end.

Definition demo_snap_read (snap : libspectrum_snap) (bytes : list byte) (name : string)
  : Z * libspectrum_snap :=
  match bytes with
  | machine :: port :: _ =>
      (0, {| libspectrum_snap_machine :=
               if Byte.eqb machine x00 then LIBSPECTRUM_MACHINE_48
               else LIBSPECTRUM_MACHINE_128;
             libspectrum_snap_out_128_memoryport := Z.of_N (Byte.to_N port);
             libspectrum_snap_pages := demo_page |})
  | _ => (3, snap)
  end.

#[local] Instance demo_platform : platform := {|
  host := demo_host;
  last_filename := demo_last_filename;
  compat_get_config_path := demo_config_path;
  current_machine_name := fun _ => "48K";
  stat := fun h dir =>
    match lookup dir (demo_dirs h) with
    | Some _ => STAT_OK
    | None => STAT_ENOENT
    end;
  strerror_errno := fun _ => "No such file or directory";
  compat_file_exists := fun h name =>
    match lookup name (demo_files h) with
    | Some _ => true
    | None => false
    end;
  compat_createdir := fun dir h =>
    (0, {| demo_last_filename := demo_last_filename h;
           demo_config_path := demo_config_path h;
           demo_files := demo_files h;
           demo_dirs := (dir, {| dir_items := []; dir_close := 0 |}) :: demo_dirs h;
           demo_open_error := demo_open_error h;
           demo_write_error := demo_write_error h |});
  compat_opendir := fun h dir => lookup dir (demo_dirs h);
  utils_last_filename := last_filename_of;
  utils_open_file := fun _ _ h => (demo_open_error h, h);
  snapshot_write := fun _ h => (demo_write_error h, h);
  utils_read_file := fun h name =>
    match lookup name (demo_files h) with
    | Some bytes => (0, bytes)
    | None => (1, [])
    end;
  libspectrum_snap_alloc :=
    {| libspectrum_snap_machine := LIBSPECTRUM_MACHINE_48;
       libspectrum_snap_out_128_memoryport := 0;
       libspectrum_snap_pages := fun _ _ => x00 |};
  libspectrum_snap_read := demo_snap_read;
  libspectrum_snap_free := fun _ => 0;
  fresh_memory := fun _ => xff
|}.

(** The program "Game (Disk 1 of 2).dsk" with configuration directory
    "/cfg"; the Save Directory is "/cfg/savestates/Game". *)
Definition game_host (files : list (string * list byte))
    (dirs : list (string * compat_dir)) : demo_host :=
  {| demo_last_filename := Some "/roms/Game (Disk 1 of 2).dsk";
     demo_config_path := Some "/cfg";
     demo_files := files;
     demo_dirs := dirs;
     demo_open_error := 0;
     demo_write_error := 0 |}.

Definition game_state (h : demo_host) (format : string) (slot : Z)
    (last : option string) (result : Z) : state :=
  {| host_state := h;
     settings_current :=
       {| od_quicksave_per_machine := 0;
          od_quicksave_format := format;
          od_quicksave_slot := slot |};
     last_check_directory := last;
     last_check_directory_result := result;
     calls := [] |}.

Definition one_save : compat_dir :=
  {| dir_items := [Dir_name "."; Dir_name ".."; Dir_name "00.szx"]; dir_close := 0 |}.

Definition save_dir : string := "/cfg/savestates/Game".

Definition empty_dir : compat_dir :=
  {| dir_items := [Dir_name "."; Dir_name ".."]; dir_close := 0 |}.

(** A directory with a save in it whose handle fails to close. *)
Definition unclosable_dir : compat_dir :=
  {| dir_items := [Dir_name "."; Dir_name ".."; Dir_name "00.szx"]; dir_close := -1 |}.

(** The Save Directory holds slot 0 and has not been queried yet. *)
Definition unqueried_state : state :=
  game_state (game_host [] [(save_dir, one_save)]) ".szx" 0 None 0.

(** The Save Directory is cached as holding a save, and is now empty. *)
Definition emptied_state : state :=
  game_state (game_host [] [(save_dir, empty_dir)]) ".szx" 0 (Some save_dir) 1.

(** The Save Directory is cached as holding a save, and is now gone. *)
Definition removed_state : state :=
  game_state (game_host [] []) ".szx" 0 (Some save_dir) 1.

Definition unclosable_state : state :=
  game_state (game_host [] [(save_dir, unclosable_dir)]) ".szx" 0 None 0.

(** The extension has three characters. *)
Definition short_extension_state : state :=
  game_state (game_host [] [(save_dir, one_save)]) ".sz" 0 None 0.

(** Slot 3 is the default slot and has no file. *)
Definition no_file_state : state :=
  game_state (game_host [] [(save_dir, empty_dir)]) ".szx" 3 None 0.

(** Slot 4 holds a 128K snapshot with bit 3 of the paging register set. *)
Definition snapshot_state : state :=
  game_state
    (game_host [("/cfg/savestates/Game/04.szx", [x01; x08])] [(save_dir, one_save)])
    ".szx" 4 None 0.


Fixpoint repeat_char (c : ascii) (n : nat) : string :=
  match n with
  | O => EmptyString
  | S n' => String c (repeat_char c n')
  end.

(** A configuration directory with a name of 4077 characters: the Save
    Directory has 4093 characters and fits [PATH_MAX], the path of a
    slot in it would have 4100. *)
Definition long_config : string := String "/" (repeat_char "a" 4076).

Definition long_config_host : demo_host :=
  {| demo_last_filename := Some "/roms/Game.tap";
     demo_config_path := Some long_config;
     demo_files := [];
     demo_dirs := [];
     demo_open_error := 0;
     demo_write_error := 0 |}.


Definition long_config_state : state :=
  game_state long_config_host ".szx" 7 None 0.

End Demo.

Module MoreDemo.

Import Demo.

#[local] Existing Instance demo_platform.

(** Slot 0 of "Game" holds a 48K snapshot. *)
Definition saved_host (open_error : Z) : demo_host :=
  {| demo_last_filename := Some "/roms/Game (Disk 1 of 2).dsk";
     demo_config_path := Some "/cfg";
     demo_files := [("/cfg/savestates/Game/00.szx", [x00; x00])];
     demo_dirs := [(save_dir, one_save)];
     demo_open_error := open_error;
     demo_write_error := 0 |}.

Definition saved_state : @state demo_platform := game_state (saved_host 0) ".szx" 0 None 0.

(** The same, with a host that fails to open the snapshot. *)
Definition unloadable_state : @state demo_platform := game_state (saved_host 5) ".szx" 0 None 0.

(** The same directory, queried once already without a save found. *)
Definition queried_state : @state demo_platform :=
  game_state (game_host [] [(save_dir, one_save)]) ".szx" 0 (Some save_dir) 0.

(** No program is loaded. *)
Definition idle_state : @state demo_platform :=
  {| host_state :=
       {| demo_last_filename := None;
          demo_config_path := Some "/cfg";
          demo_files := [];
          demo_dirs := [];
          demo_open_error := 0;
          demo_write_error := 0 |};
     settings_current :=
       {| od_quicksave_per_machine := 0;
          od_quicksave_format := ".szx";
          od_quicksave_slot := 0 |};
     last_check_directory := None;
     last_check_directory_result := 0;
     calls := [] |}.

(** A program with a long name. *)
Definition long_name_state : @state demo_platform :=
  {| host_state :=
       {| demo_last_filename := Some "/roms/The Great Escape 128.tzx";
          demo_config_path := Some "/cfg";
          demo_files := [];
          demo_dirs := [];
          demo_open_error := 0;
          demo_write_error := 0 |};
     settings_current :=
       {| od_quicksave_per_machine := 0;
          od_quicksave_format := ".szx";
          od_quicksave_slot := 0 |};
     last_check_directory := None;
     last_check_directory_result := 0;
     calls := [] |}.

(** A host on which no directory can be made and whose snapshot in slot
    0 cannot be freed without an error. *)
#[local] Instance readonly_platform : platform := {|
  host := demo_host;
  last_filename := demo_last_filename;
  compat_get_config_path := demo_config_path;
  current_machine_name := fun _ => "48K";
  stat := fun h dir =>
    match lookup dir (demo_dirs h) with
    | Some _ => STAT_OK
    | None => STAT_ENOENT
    end;
  strerror_errno := fun _ => "Read-only file system";
  compat_file_exists := fun h name =>
    match lookup name (demo_files h) with
    | Some _ => true
    | None => false
    end;
  compat_createdir := fun dir h => (-1, h);
  compat_opendir := fun h dir => lookup dir (demo_dirs h);
  utils_last_filename := last_filename_of;
  utils_open_file := fun _ _ h => (demo_open_error h, h);
  snapshot_write := fun _ h => (demo_write_error h, h);
  utils_read_file := fun h name =>
    match lookup name (demo_files h) with
    | Some bytes => (0, bytes)
    | None => (1, [])
    end;
  libspectrum_snap_alloc :=
    {| libspectrum_snap_machine := LIBSPECTRUM_MACHINE_48;
       libspectrum_snap_out_128_memoryport := 0;
       libspectrum_snap_pages := fun _ _ => x00 |};
  libspectrum_snap_read := demo_snap_read;
  libspectrum_snap_free := fun _ => 7;
  fresh_memory := fun _ => xff
|}.

(** On that host: the Save Directory of "Game" does not exist yet. *)
Definition readonly_state : @state readonly_platform :=
  {| host_state := game_host [] [];
     settings_current :=
       {| od_quicksave_per_machine := 0;
          od_quicksave_format := ".szx";
          od_quicksave_slot := 0 |};
     last_check_directory := None;
     last_check_directory_result := 0;
     calls := [] |}.

(** On that host: slot 0 holds a snapshot. *)
Definition unfreeable_state : @state readonly_platform :=
  {| host_state := saved_host 0;
     settings_current :=
       {| od_quicksave_per_machine := 0;
          od_quicksave_format := ".szx";
          od_quicksave_slot := 0 |};
     last_check_directory := None;
     last_check_directory_result := 0;
     calls := [] |}.

End MoreDemo.

(* ================================================================= *)
(** * Properties *)

(** ** The C library model *)

Lemma code_inj (a b : ascii) : CStr.code a = CStr.code b -> a = b.
Proof.
  unfold CStr.code. intros H. apply N2Z.inj in H.
  rewrite <- (ascii_N_embedding a), <- (ascii_N_embedding b). now rewrite H.
Qed.

Lemma code_diff (a b : ascii) : a <> b -> CStr.code a - CStr.code b <> 0.
Proof. intros Hab H. apply Hab, code_inj. lia. Qed.

Lemma code_nonzero (a : ascii) : a <> Ascii.zero -> CStr.code a <> 0.
Proof. intros Ha H. apply Ha, code_inj. exact H. Qed.

Lemma strcmp_refl (s : string) : CStr.strcmp s s = 0.
Proof.
  induction s as [|c s IH]; simpl; [reflexivity|].
  now rewrite Ascii.eqb_refl.
Qed.

Lemma snprintf_fits (size : nat) (out : string) :
  (String.length out < size)%nat -> CStr.snprintf size out = out.
Proof.
  unfold CStr.snprintf. intros H.
  assert (String.length out <= size - 1)%nat as Hle by lia.
  clear H. revert Hle. generalize (size - 1)%nat as n.
  induction out as [|c out IH]; intros [|n] Hn; simpl in *;
    try reflexivity; try lia.
  f_equal. apply IH. lia.
Qed.

Lemma length_append (s t : string) :
  String.length (s ++ t) = (String.length s + String.length t)%nat.
Proof. induction s as [|c s IH]; simpl; [reflexivity|now rewrite IH]. Qed.

(** ["%02d"] on a slot between 0 and 99 is the two-digit rendering. *)
Lemma fmt_02d_two_digits (slot : Z) :
  0 <= slot <= 99 -> CStr.fmt_02d slot = two_digits slot.
Proof.
  intros Hslot.
  assert (forall n : nat, (n < 100)%nat ->
            CStr.fmt_02d (Z.of_nat n) = two_digits (Z.of_nat n)) as Hall.
  { intros n Hn.
    do 100 (destruct n as [|n]; [vm_compute; reflexivity|]).
    lia. }
  rewrite <- (Z2Nat.id slot) by lia. apply Hall. lia.
Qed.

(** ** The stateful functions *)

(** Unfolds the monad down to plain state passing. *)
Ltac run_monad :=
  repeat progress
    (unfold bind, gets, ret, modify, log, host_call, set_od_quicksave_slot,
       set_last_check_directory, set_last_check_directory_result;
     cbn beta iota).

Unset Implicit Arguments.

Section Properties.

Context {P : platform}.

Lemma state_eta (st : state) :
  {| host_state := host_state st;
     settings_current := settings_current st;
     last_check_directory := last_check_directory st;
     last_check_directory_result := last_check_directory_result st;
     calls := calls st |} = st.
Proof. destruct st. reflexivity. Qed.


(** The internal load, which [savestate_read] uses, gives up on a
    missing file as well, but with the result 1. *)
Lemma savestate_read_internal_missing (st : state) (slot : Z) :
  check_current_savestate_exist st slot = 0 ->
  savestate_read_internal slot st = (1, st).
Proof.
  intros Hexist. unfold savestate_read_internal. run_monad.
  now rewrite Hexist.
Qed.


(** C6 as amended. When the resolved Save Directory is not reported
    missing by [stat], equals the cached directory, and the cached
    result is true, [check_any_savestate_exist] returns the cached
    result and leaves the state as it was: the directory is not opened,
    whatever it contains. *)
Theorem check_any_savestate_exist_sticky (st : state) (dir : string) :
  quicksave_get_current_dir st = Some dir ->
  check_dir_exist st (Some dir) <> 0 ->
  last_check_directory st = Some dir ->
  last_check_directory_result st <> 0 ->
  check_any_savestate_exist st = (last_check_directory_result st, st)
  /\ calls (snd (check_any_savestate_exist st)) = calls st.
Proof.
  intros Hdir Hstat Hlast Hresult.
  assert (check_any_savestate_exist st = (last_check_directory_result st, st)) as Hrun.
  { unfold check_any_savestate_exist. run_monad.
    rewrite Hdir.
    apply Z.eqb_neq in Hstat. rewrite Hstat. run_monad.
    rewrite Hlast, strcmp_refl. simpl.
    apply Z.eqb_neq in Hresult. rewrite Hresult. reflexivity. }
  split; [exact Hrun|now rewrite Hrun].
Qed.

(** The first query after the directory has changed: the cache is
    reset, nothing is scanned, and the answer is 0. *)
Lemma check_any_savestate_exist_reset (st : state) (dir : string) :
  quicksave_get_current_dir st = Some dir ->
  check_dir_exist st (Some dir) <> 0 ->
  match last_check_directory st with
  | None => True
  | Some last => CStr.strcmp dir last <> 0
  end ->
  check_any_savestate_exist st =
    (0, {| host_state := host_state st;
           settings_current := settings_current st;
           last_check_directory := Some dir;
           last_check_directory_result := 0;
           calls := calls st |}).
Proof.
  intros Hdir Hstat Hlast.
  unfold check_any_savestate_exist. run_monad.
  rewrite Hdir. apply Z.eqb_neq in Hstat. rewrite Hstat. run_monad.
  destruct (last_check_directory st) as [last|]; simpl.
  - apply Z.eqb_neq in Hlast. rewrite Hlast. reflexivity.
  - reflexivity.
Qed.

(** What [savestate_read] and [savestate_write] leave in
    [settings_current.od_quicksave_slot]. *)
Lemma quicksave_create_dir_settings (st : state) :
  settings_current (snd (quicksave_create_dir st)) = settings_current st.
Proof.
  unfold quicksave_create_dir. run_monad.
  destruct (quicksave_get_current_dir st) as [dir|]; [|reflexivity].
  destruct (check_dir_exist st (Some dir) =? 0).
  - destruct (compat_createdir dir (host_state st)) as [made h].
    destruct (made =? -1); reflexivity.
  - destruct (check_dir_exist st (Some dir) =? -1); reflexivity.
Qed.

Lemma savestate_read_internal_settings (slot : Z) (st : state) :
  settings_current (snd (savestate_read_internal slot st)) = settings_current st.
Proof.
  unfold savestate_read_internal. run_monad.
  destruct (check_current_savestate_exist st slot =? 0); [reflexivity|].
  destruct (quicksave_get_filename st slot) as [filename|]; [|reflexivity].
  destruct (utils_open_file filename 9 (host_state st)) as [error h].
  destruct (negb (error =? 0)); reflexivity.
Qed.

Lemma savestate_write_internal_settings (slot : Z) (st : state) :
  settings_current (snd (savestate_write_internal slot st)) = settings_current st.
Proof.
  unfold savestate_write_internal. run_monad.
  destruct (quicksave_get_filename st slot) as [filename|]; [|reflexivity].
  pose proof (quicksave_create_dir_settings st) as Hdir.
  destruct (quicksave_create_dir st) as [failed st1]. simpl in Hdir.
  destruct (negb (failed =? 0)); [exact Hdir|].
  destruct (snapshot_write filename (host_state st1)) as [error h].
  destruct (negb (error =? 0)); simpl; now rewrite Hdir.
Qed.

Lemma strtol_value_no_digits (base : string) :
  no_digits_to_read base -> CStr.strtol_value base = 0.
Proof.
  unfold no_digits_to_read.
  induction base as [|c rest IH]; simpl; [reflexivity|].
  destruct (CStr.isspace c) eqn:Hspace; [exact IH|].
  intros Hno. unfold CStr.atoi_signed.
  destruct c as [[] [] [] [] [] [] [] []];
    cbn in Hno; cbn; try discriminate Hno; try reflexivity;
    (destruct rest as [|d rest']; cbn; [reflexivity|rewrite Hno; reflexivity]).
Qed.

Lemma atoi_no_digits (base : string) : no_digits_to_read base -> CStr.atoi base = 0.
Proof.
  intros Hno. unfold CStr.atoi, CStr.strtol.
  rewrite (strtol_value_no_digits base Hno). reflexivity.
Qed.

(** What [atoi] returns is an [int]. *)
Lemma atoi_int (s : string) : - 2 ^ 31 <= CStr.atoi s < 2 ^ 31.
Proof.
  unfold CStr.atoi, CStr.int_of_long.
  pose proof (Z.mod_pos_bound (CStr.strtol s + 2 ^ 31) (2 ^ 32)). lia.
Qed.

(** A number that fits an [int] is returned as it is. *)
Lemma atoi_fits (s : string) :
  - 2 ^ 31 <= CStr.strtol_value s < 2 ^ 31 -> CStr.atoi s = CStr.strtol_value s.
Proof.
  intros Hfits. unfold CStr.atoi, CStr.strtol, CStr.int_of_long, CStr.LONG_MIN,
    CStr.LONG_MAX.
  rewrite Z.min_r, Z.max_r by lia.
  rewrite Z.mod_small by lia. lia.
Qed.

(** C10 as amended. With [base] the base name that [utils_last_filename]
    extracts from the argument, [savestate_read] and [savestate_write]
    store [atoi base] in [settings_current.od_quicksave_slot] and then
    run the internal load or save of that slot from the state so
    changed; whatever the load or save returns, the setting still holds
    [atoi base] afterwards; a base name in which no digit follows the
    optional white space and sign selects slot 0; and the slot stored
    is an [int] of 32 bits. *)
Theorem savestate_read_write_set_slot
    (st : state) (savestate : option string) (base : string) :
  utils_last_filename savestate 1 = Some base ->
  savestate_read savestate st
    = savestate_read_internal (CStr.atoi base) (with_slot st (CStr.atoi base))
  /\ savestate_write savestate st
    = savestate_write_internal (CStr.atoi base) (with_slot st (CStr.atoi base))
  /\ od_quicksave_slot (settings_current (snd (savestate_read savestate st)))
     = CStr.atoi base
  /\ od_quicksave_slot (settings_current (snd (savestate_write savestate st)))
     = CStr.atoi base
  /\ (no_digits_to_read base -> CStr.atoi base = 0)
  /\ - 2 ^ 31 <= CStr.atoi base < 2 ^ 31.
Proof.
  intros Hbase.
  assert (savestate_read savestate st
          = savestate_read_internal (CStr.atoi base) (with_slot st (CStr.atoi base)))
    as Hread.
  { unfold savestate_read. rewrite Hbase. run_monad. reflexivity. }
  assert (savestate_write savestate st
          = savestate_write_internal (CStr.atoi base) (with_slot st (CStr.atoi base)))
    as Hwrite.
  { unfold savestate_write. rewrite Hbase. run_monad. reflexivity. }
  split; [exact Hread|]. split; [exact Hwrite|].
  split; [rewrite Hread, savestate_read_internal_settings; reflexivity|].
  split; [rewrite Hwrite, savestate_write_internal_settings; reflexivity|].
  split; [apply atoi_no_digits|apply atoi_int].
Qed.

(** ** The directory scan *)

(** The loop against [compat_readdir], one call at a time. *)
Lemma scan_loop_readdir (check_fn : option string -> Z) (d : compat_dir) :
  scan_loop check_fn (dir_items d) =
    match compat_readdir d with
    | (COMPAT_DIR_RESULT_OK, name, d') =>
        if negb (check_fn (Some name) =? 0) then Some 1
        else scan_loop check_fn (dir_items d')
    | (COMPAT_DIR_RESULT_END, _, _) => Some 0
    | (COMPAT_DIR_RESULT_ERROR, _, _) => None
    end.
Proof.
  unfold compat_readdir. destruct (dir_items d) as [|[name|] rest]; reflexivity.
Qed.

Lemma scan_loop_match (check_fn : option string -> Z)
    (before : list string) (name : string) (after : list dir_item) :
  Forall (rejects check_fn) before ->
  check_fn (Some name) <> 0 ->
  scan_loop check_fn (map Dir_name before ++ Dir_name name :: after) = Some 1.
Proof.
  intros Hbefore Hname. induction Hbefore as [|n before Hn _ IH]; simpl.
  - apply Z.eqb_neq in Hname. now rewrite Hname.
  - unfold rejects in Hn. rewrite Hn. exact IH.
Qed.

Lemma scan_loop_end (check_fn : option string -> Z) (names : list string) :
  Forall (rejects check_fn) names ->
  scan_loop check_fn (map Dir_name names) = Some 0.
Proof.
  intros Hnames. induction Hnames as [|n names Hn _ IH]; simpl.
  - reflexivity.
  - unfold rejects in Hn. rewrite Hn. exact IH.
Qed.

Lemma scan_loop_ioerror (check_fn : option string -> Z)
    (before : list string) (after : list dir_item) :
  Forall (rejects check_fn) before ->
  scan_loop check_fn (map Dir_name before ++ Dir_ioerror :: after) = None.
Proof.
  intros Hbefore. induction Hbefore as [|n before Hn _ IH]; simpl.
  - reflexivity.
  - unfold rejects in Hn. rewrite Hn. exact IH.
Qed.

Lemma scan_directory_for_savestates_opened
    (st : state) (dir : string) (check_fn : option string -> Z) (d : compat_dir) :
  compat_opendir (host_state st) dir = Some d ->
  fst (scan_directory_for_savestates (Some dir) check_fn st) =
    match scan_loop check_fn (dir_items d) with
    | None => 0
    | Some found => if compat_closedir d =? 0 then found else 0
    end.
Proof.
  intros Hopen. unfold scan_directory_for_savestates. run_monad.
  rewrite Hopen. destruct (scan_loop check_fn (dir_items d)) as [found|]; run_monad.
  - destruct (compat_closedir d =? 0); reflexivity.
  - reflexivity.
Qed.

(** C7 as amended. [scan_directory_for_savestates] returns 0 when the
    directory cannot be opened; when an enumerated entry satisfies the
    predicate it stops there, whatever follows, and returns 1 if closing
    the directory succeeds (0 if closing fails); it returns 0 when the
    enumeration ends without a match, and 0 when the enumeration reports
    an error before any match. *)
Theorem scan_directory_for_savestates_result
    (st : state) (dir : string) (check_fn : option string -> Z) :
  (compat_opendir (host_state st) dir = None ->
   fst (scan_directory_for_savestates (Some dir) check_fn st) = 0)
  /\ (forall d, compat_opendir (host_state st) dir = Some d ->
      (forall before name after,
          dir_items d = (map Dir_name before ++ Dir_name name :: after)%list ->
          Forall (rejects check_fn) before ->
          check_fn (Some name) <> 0 ->
          fst (scan_directory_for_savestates (Some dir) check_fn st)
          = if compat_closedir d =? 0 then 1 else 0)
      /\ (forall names,
          dir_items d = map Dir_name names ->
          Forall (rejects check_fn) names ->
          fst (scan_directory_for_savestates (Some dir) check_fn st) = 0)
      /\ (forall before after,
          dir_items d = (map Dir_name before ++ Dir_ioerror :: after)%list ->
          Forall (rejects check_fn) before ->
          fst (scan_directory_for_savestates (Some dir) check_fn st) = 0)).
Proof.
  split.
  - intros Hopen. unfold scan_directory_for_savestates. run_monad.
    rewrite Hopen. reflexivity.
  - intros d Hopen.
    rewrite (@scan_directory_for_savestates_opened st dir check_fn d Hopen).
    repeat split.
    + intros before name after Hitems Hbefore Hname.
      now rewrite Hitems, (@scan_loop_match check_fn before name after Hbefore Hname).
    + intros names Hitems Hnames.
      rewrite Hitems, (@scan_loop_end check_fn names Hnames).
      destruct (compat_closedir d =? 0); reflexivity.
    + intros before after Hitems Hbefore.
      now rewrite Hitems, (@scan_loop_ioerror check_fn before after Hbefore).
Qed.

(** ** The screen of a slot *)

Lemma land_8_testbit (port : Z) : (Z.land port 8 =? 0) = negb (Z.testbit port 3).
Proof.
  destruct (Z.testbit port 3) eqn:Hbit; simpl.
  - apply Z.eqb_neq. intros Hzero.
    assert (Z.testbit (Z.land port 8) 3 = true) as Hland.
    { rewrite Z.land_spec, Hbit. reflexivity. }
    rewrite Hzero in Hland. discriminate Hland.
  - apply Z.eqb_eq. apply Z.bits_inj'. intros n Hn.
    rewrite Z.land_spec, Z.bits_0.
    change 8 with (2 ^ 3). rewrite Z.pow2_bits_eqb by lia.
    destruct (Z.eqb_spec 3 n) as [<-|_].
    + now rewrite Hbit.
    + apply andb_false_r.
Qed.

Lemma screen_page_display_page (snap : libspectrum_snap) :
  screen_page snap = display_page snap.
Proof.
  unfold screen_page, display_page.
  destruct (libspectrum_snap_machine snap); simpl; try reflexivity;
    rewrite land_8_testbit, negb_involutive; reflexivity.
Qed.

Lemma libspectrum_new_length (n : nat) : List.length (libspectrum_new n) = n.
Proof. unfold libspectrum_new. now rewrite length_map, length_seq. Qed.

Lemma memset_whole (buf : list byte) (c : byte) (n : nat) :
  List.length buf = n -> CStr.memset buf c n = repeat c n.
Proof.
  intros Hlen. unfold CStr.memset.
  rewrite skipn_all2 by lia. apply app_nil_r.
Qed.

Lemma memcpy_whole (dst : list byte) (src : nat -> byte) (n : nat) :
  List.length dst = n -> CStr.memcpy dst src n = map src (seq 0 n).
Proof.
  intros Hlen. unfold CStr.memcpy.
  rewrite skipn_all2 by lia. apply app_nil_r.
Qed.

(** The function, with the buffer operations carried out. *)
Lemma savestate_get_screen_for_slot_eq (st : state) (slot : Z) :
  savestate_get_screen_for_slot st slot =
    let (error, snap) :=
      savetate_read_snapshot st (quicksave_get_filename st slot)
        libspectrum_snap_alloc in
    if negb (error =? 0)
    then (error, {| buffer := repeat x00 screen_size; length := 6912 |})
    else
      let copied :=
        {| buffer := map (libspectrum_snap_pages snap (display_page snap))
                       (seq 0 screen_size);
           length := 6912 |} in
      if negb (libspectrum_snap_free snap =? 0)
      then (libspectrum_snap_free snap, copied)
      else (0, copied).
Proof.
  unfold savestate_get_screen_for_slot. cbv zeta.
  change (Z.to_nat 6912) with screen_size.
  rewrite (@memset_whole (libspectrum_new screen_size) x00 screen_size
             (libspectrum_new_length screen_size)).
  destruct (savetate_read_snapshot st (quicksave_get_filename st slot)
              libspectrum_snap_alloc) as [error snap].
  rewrite screen_page_display_page.
  rewrite (@memcpy_whole (repeat x00 screen_size) _ screen_size
             (repeat_length x00 screen_size)).
  reflexivity.
Qed.

Lemma savetate_read_snapshot_unavailable (st : state) (slot : Z) :
  snapshot_unavailable st slot ->
  fst (savetate_read_snapshot st (quicksave_get_filename st slot)
         libspectrum_snap_alloc) <> 0.
Proof.
  unfold snapshot_unavailable, savetate_read_snapshot.
  destruct (quicksave_get_filename st slot) as [filename|]; [|intros _; simpl; lia].
  destruct (compat_file_exists (host_state st) filename); simpl.
  - destruct (utils_read_file (host_state st) filename) as [error bytes]. simpl.
    intros [Hexists|[Hread|Hparse]].
    + discriminate Hexists.
    + apply Z.eqb_neq in Hread. rewrite Hread. exact (proj1 (Z.eqb_neq _ _) Hread).
    + destruct (error =? 0) eqn:Herror; simpl.
      * exact Hparse.
      * now apply Z.eqb_neq.
  - intros _. lia.
Qed.

(** C4. For a snapshot that was read and parsed, the page the screen is
    taken from is [display_page]: for a machine of the 128K paging
    family page 7 when bit 3 of the paging register is set and page 5
    otherwise, page 5 for any other machine; and the buffer returned
    holds the first 6912 bytes of that page, and nothing else. *)
Theorem savestate_get_screen_for_slot_copies_display_page
    (st : state) (slot : Z) (snap : libspectrum_snap) :
  savetate_read_snapshot st (quicksave_get_filename st slot) libspectrum_snap_alloc
    = (0, snap) ->
  buffer (snd (savestate_get_screen_for_slot st slot))
    = map (libspectrum_snap_pages snap (display_page snap)) (seq 0 screen_size)
  /\ List.length (buffer (snd (savestate_get_screen_for_slot st slot))) = Z.to_nat 6912.
Proof.
  intros Hread.
  assert (buffer (snd (savestate_get_screen_for_slot st slot))
          = map (libspectrum_snap_pages snap (display_page snap)) (seq 0 screen_size))
    as Hbuffer.
  { rewrite savestate_get_screen_for_slot_eq, Hread. cbv zeta.
    change (negb (0 =? 0)) with false. cbv iota.
    destruct (negb (libspectrum_snap_free snap =? 0)); reflexivity. }
  split; [exact Hbuffer|].
  rewrite Hbuffer, length_map, length_seq. reflexivity.
Qed.

(** C5. The buffer returned always has 6912 bytes (and the length field
    says so); and when the path of the Save File does not resolve, the
    file does not exist, or it cannot be read or parsed, every byte of
    the buffer is zero. *)
Theorem savestate_get_screen_for_slot_buffer (st : state) (slot : Z) :
  List.length (buffer (snd (savestate_get_screen_for_slot st slot))) = Z.to_nat 6912
  /\ length (snd (savestate_get_screen_for_slot st slot)) = 6912
  /\ (snapshot_unavailable st slot ->
      buffer (snd (savestate_get_screen_for_slot st slot))
        = repeat x00 (Z.to_nat 6912)
      /\ fst (savestate_get_screen_for_slot st slot) <> 0).
Proof.
  rewrite savestate_get_screen_for_slot_eq.
  pose proof (@savetate_read_snapshot_unavailable st slot) as Hfail.
  destruct (savetate_read_snapshot st (quicksave_get_filename st slot)
              libspectrum_snap_alloc) as [error snap].
  simpl fst in Hfail. cbv zeta.
  destruct (error =? 0) eqn:Herror; cbv beta iota delta [negb].
  - split; [|split].
    + destruct (libspectrum_snap_free snap =? 0); cbv beta iota delta [snd buffer];
        now rewrite length_map, length_seq.
    + destruct (libspectrum_snap_free snap =? 0); reflexivity.
    + intros Hunavailable. exfalso. apply Z.eqb_eq in Herror. now apply Hfail.
  - split; [|split].
    + cbv beta iota delta [snd buffer]. apply repeat_length.
    + reflexivity.
    + intros _. split; [reflexivity|].
      cbv beta iota delta [fst]. now apply Z.eqb_neq.
Qed.

(** ** The name of a slot file *)

Lemma code_diff_eqb (a b : ascii) : a <> b -> (CStr.code a - CStr.code b =? 0) = false.
Proof. intros H. apply Z.eqb_neq. now apply code_diff. Qed.

Lemma code_neg_eqb (a : ascii) : a <> Ascii.zero -> (0 - CStr.code a =? 0) = false.
Proof. intros H. apply Z.eqb_neq. pose proof (code_nonzero H). lia. Qed.

Lemma code_pos_eqb (a : ascii) : a <> Ascii.zero -> (CStr.code a =? 0) = false.
Proof. intros H. apply Z.eqb_neq. now apply code_nonzero. Qed.

(** C2 as amended. When the configured extension is a dot followed by
    three characters other than a dot, [is_savestate_name] returns 1 if
    and only if the base name of the entry has length 2 plus that of the
    extension (that is, 6), begins with two ASCII digits, and continues
    with exactly the extension; in every other case it returns 0. *)
Theorem is_savestate_name_dotted_extension (st : state) (name : string) :
  dotted_extension (od_quicksave_format (settings_current st)) ->
  (is_savestate_name st (Some name) = 1 <->
   exists base,
     utils_last_filename (Some name) 0 = Some base
     /\ slot_file_shape (od_quicksave_format (settings_current st)) base)
  /\ (is_savestate_name st (Some name) = 0 \/ is_savestate_name st (Some name) = 1).
Proof.
  intros (a & b & c & Hformat & Ha & Hb & Hc & Ha0 & Hb0 & Hc0).
  unfold is_savestate_name. rewrite Hformat.
  destruct (utils_last_filename (Some name) 0) as [filename|].
  2:{ split; [|left; reflexivity].
      split; [discriminate|intros (base & Hbase & _); discriminate]. }
  assert (forall X : Z, (X = 1 <-> slot_file_shape 
             (String "." (String a (String b (String c EmptyString)))) filename) ->
          (X = 1 <-> exists base, Some filename = Some base /\
               slot_file_shape (String "." (String a (String b (String c EmptyString)))) base))
    as Hwrap.
  { intros X HX. rewrite HX. split.
    - intros Hshape. exists filename. now split.
    - intros (base & Hbase & Hshape). now injection Hbase as ->. }
  destruct filename as [|b0 [|b1 [|b2 [|b3 [|b4 [|b5 [|b6 rest]]]]]]].
  all: try (split; [apply Hwrap; split; [discriminate|intros [Hlen _]; discriminate Hlen]
                   |left; reflexivity]).
  assert (slot_file_shape (String "." (String a (String b (String c EmptyString))))
            (String b0 (String b1 (String b2 (String b3 (String b4 (String b5 EmptyString))))))
          <-> (CStr.isdigit b0 = true /\ CStr.isdigit b1 = true /\
               b2 = "."%char /\ b3 = a /\ b4 = b /\ b5 = c)) as Hshape.
  { unfold slot_file_shape, char_at. simpl. split.
    - intros (_ & H0 & H1 & Hsub). injection Hsub as -> -> -> ->. now repeat split.
    - intros (H0 & H1 & -> & -> & -> & ->). now repeat split. }
  cbn [String.length Nat.eqb negb CStr.strrchr char_at String.get].
  match goal with
  | |- (?X = 1 <-> _) /\ _ =>
      cut ((X = 1 <-> (CStr.isdigit b0 = true /\ CStr.isdigit b1 = true /\
                       b2 = "."%char /\ b3 = a /\ b4 = b /\ b5 = c))
           /\ (X = 0 \/ X = 1));
      [intros [Hiff Hbool]; split; [apply Hwrap; now rewrite Hshape|exact Hbool]|]
  end.
  clear Hwrap Hshape Hformat.
  repeat match goal with
         | |- context [Ascii.eqb ?x ?y] => destruct (Ascii.eqb_spec x y); [subst|]
         | _ => progress cbn [CStr.strncmp negb]
         end.
  all: rewrite ?code_diff_eqb, ?code_neg_eqb, ?code_pos_eqb by congruence.
  all: try change (0 =? 0) with true.
  all: try change (CStr.isdigit ".") with false.
  all: cbn [negb orb].
  all: repeat match goal with
              | |- context [CStr.isdigit ?x] => is_var x; destruct (CStr.isdigit x)
              end; cbn [negb orb].
  all: (split;
        [split;
         [try discriminate; intros _; repeat split; congruence
         |intros (? & ? & ? & ? & ? & ?); try reflexivity; try discriminate; congruence]
        |auto]).
Qed.
(** ** The path of a slot *)

Lemma atoi_two_digits (slot : Z) : 0 <= slot <= 99 -> CStr.atoi (two_digits slot) = slot.
Proof.
  intros Hslot.
  assert (forall n : nat, (n < 100)%nat ->
            CStr.atoi (two_digits (Z.of_nat n)) = Z.of_nat n) as Hall.
  { intros n Hn.
    do 100 (destruct n as [|n]; [vm_compute; reflexivity|]).
    lia. }
  rewrite <- (Z2Nat.id slot) at 2 by lia.
  rewrite <- (Z2Nat.id slot) at 1 by lia. apply Hall. lia.
Qed.

(** C8 as amended. For a slot from 0 to 99, when the Save Directory
    resolves and the directory, the separator, the two digits and the
    extension together stay below [PATH_MAX] characters,
    [quicksave_get_filename] returns the Save Directory, the separator,
    the two-digit zero-padded decimal rendering of the slot, and the
    configured extension, in this order and nothing more. *)
Theorem quicksave_get_filename_two_digits (st : state) (slot : Z) (dir : string) :
  0 <= slot <= 99 ->
  quicksave_get_current_dir st = Some dir ->
  (String.length dir + 3 + String.length (od_quicksave_format (settings_current st))
   < PATH_MAX)%nat ->
  quicksave_get_filename st slot =
    Some (dir ++ FUSE_DIR_SEP_STR ++ two_digits slot
            ++ od_quicksave_format (settings_current st))
  /\ CStr.atoi (two_digits slot) = slot
  /\ String.length (two_digits slot) = 2%nat.
Proof.
  intros Hslot Hdir Hfits. split; [|split].
  - unfold quicksave_get_filename. rewrite Hdir.
    rewrite (fmt_02d_two_digits Hslot). f_equal.
    apply snprintf_fits.
    rewrite !length_append. change (String.length FUSE_DIR_SEP_STR) with 1%nat.
    change (String.length (two_digits slot)) with 2%nat. lia.
  - apply atoi_two_digits, Hslot.
  - reflexivity.
Qed.

(** ** The Name Sanitizer *)

Lemma chop_skip (r : regex) (skipped rest : string) :
  chop r (String.length skipped) (skipped ++ rest) = chop r O rest.
Proof.
  induction skipped as [|c skipped IH]; simpl.
  - destruct rest; reflexivity.
  - exact IH.
Qed.

Lemma regexec_at_start (r : regex) (s : string) (n : nat) :
  regexec r s = Some (O, n) -> longest_prefix r s = Some n.
Proof.
  destruct s as [|c s]; simpl.
  - destruct (nullable r); [|discriminate]. intros H. now injection H as <-.
  - destruct (longest_prefix (deriv c r) s) as [m|].
    + intros H. now injection H as <-.
    + destruct (nullable r).
      * intros H. now injection H as <-.
      * destruct (regexec r s) as [[off m]|]; discriminate.
Qed.

Lemma regexec_later (r : regex) (c : ascii) (s : string) (off n : nat) :
  regexec r (String c s) = Some (S off, n) ->
  longest_prefix r (String c s) = None /\ regexec r s = Some (off, n).
Proof.
  cbn [regexec].
  destruct (longest_prefix r (String c s)) as [m|]; [discriminate|].
  destruct (regexec r s) as [[off' m]|]; [|discriminate].
  intros H. injection H as <- <-. split; reflexivity.
Qed.

(** Removing the first match: the text before it stays, the match
    goes, the rest is sanitized in turn. *)
Lemma chop_first_match (r : regex) (stem qualifier rest : string) :
  qualifier <> EmptyString ->
  regexec r (stem ++ qualifier ++ rest)
    = Some (String.length stem, String.length qualifier) ->
  chop r O (stem ++ qualifier ++ rest) = stem ++ chop r O rest.
Proof.
  intros Hnonempty. induction stem as [|c stem IH]; intros Hmatch.
  - destruct qualifier as [|c qualifier]; [contradiction|].
    apply regexec_at_start in Hmatch.
    change (EmptyString ++ String c qualifier ++ rest)
      with (String c (qualifier ++ rest)) in *.
    cbn [chop]. rewrite Hmatch. cbn [String.length]. apply chop_skip.
  - change (String c stem ++ qualifier ++ rest)
      with (String c (stem ++ qualifier ++ rest)) in *.
    cbn [String.length] in Hmatch. apply regexec_later in Hmatch.
    destruct Hmatch as [Hnone Hmatch].
    cbn [chop]. rewrite Hnone. change (String c stem ++ chop r O rest)
      with (String c (stem ++ chop r O rest)).
    f_equal. apply IH, Hmatch.
Qed.

(** *** The language of a rule and the matcher *)

Lemma str_app_nil_r (s : string) : s ++ EmptyString = s.
Proof. induction s as [|c s IH]; simpl; [reflexivity|now rewrite IH]. Qed.


Lemma str_app_eq_nil (s t : string) :
  s ++ t = EmptyString -> s = EmptyString /\ t = EmptyString.
Proof. destruct s; simpl; intros H; [now split|discriminate H]. Qed.

Lemma lang_void (s : string) : ~ lang Void s.
Proof. intros H. inversion H. Qed.

Lemma lang_eps_inv (s : string) : lang Eps s -> s = EmptyString.
Proof. intros H. inversion H. reflexivity. Qed.

Lemma lang_set_inv (p : ascii -> bool) (s : string) :
  lang (Set_ p) s -> exists c, s = String c EmptyString /\ p c = true.
Proof. intros H. inversion H; subst. exists c. now split. Qed.

Lemma lang_cat_inv (r1 r2 : regex) (s : string) :
  lang (Cat r1 r2) s -> exists s1 s2, s = s1 ++ s2 /\ lang r1 s1 /\ lang r2 s2.
Proof. intros H. inversion H; subst. exists s1, s2. now repeat split. Qed.

Lemma lang_alt_inv (r1 r2 : regex) (s : string) :
  lang (Alt r1 r2) s -> lang r1 s \/ lang r2 s.
Proof. intros H. inversion H; subst; [now left|now right]. Qed.

Lemma nullable_lang (r : regex) : nullable r = true -> lang r EmptyString.
Proof.
  induction r as [| |p|r1 IH1 r2 IH2|r1 IH1 r2 IH2|r IH]; simpl; intros H;
    try discriminate H.
  - constructor.
  - apply andb_true_iff in H. destruct H as [H1 H2].
    change EmptyString with (EmptyString ++ EmptyString).
    constructor; [now apply IH1|now apply IH2].
  - apply orb_true_iff in H. destruct H as [H|H].
    + apply lang_alt_l. now apply IH1.
    + apply lang_alt_r. now apply IH2.
  - constructor.
Qed.

Lemma lang_nullable (r : regex) : lang r EmptyString -> nullable r = true.
Proof.
  intros H. remember EmptyString as s eqn:Hs.
  induction H as [|p c Hc|r1 r2 s1 s2 H1 IH1 H2 IH2|r1 r2 s H IH|r1 r2 s H IH
                 |r|r s1 s2 H1 IH1 H2 IH2]; simpl.
  - reflexivity.
  - discriminate Hs.
  - apply str_app_eq_nil in Hs. destruct Hs as [-> ->].
    now rewrite IH1, IH2.
  - now rewrite IH.
  - rewrite IH by assumption. apply orb_true_r.
  - reflexivity.
  - reflexivity.
Qed.

Lemma lang_cat_void_l (r : regex) (s : string) : ~ lang (Cat Void r) s.
Proof.
  intros H. apply lang_cat_inv in H. destruct H as (s1 & s2 & _ & H & _).
  exact (lang_void _ H).
Qed.

Lemma lang_cat_void_r (r : regex) (s : string) : ~ lang (Cat r Void) s.
Proof.
  intros H. apply lang_cat_inv in H. destruct H as (s1 & s2 & _ & _ & H).
  exact (lang_void _ H).
Qed.

Lemma lang_cat_eps (r : regex) (s : string) : lang (Cat Eps r) s <-> lang r s.
Proof.
  split; intros H.
  - apply lang_cat_inv in H. destruct H as (s1 & s2 & -> & H1 & H2).
    apply lang_eps_inv in H1. subst s1. exact H2.
  - change s with (EmptyString ++ s). constructor; [constructor|exact H].
Qed.

Lemma lang_cat_smart (r1 r2 : regex) (s : string) :
  lang (cat r1 r2) s <-> lang (Cat r1 r2) s.
Proof.
  destruct r1, r2; simpl; split; intros H;
    try exact H;
    try (destruct (lang_void _ H));
    try (destruct (lang_cat_void_l _ _ H));
    try (destruct (lang_cat_void_r _ _ H));
    try (apply lang_cat_eps; exact H);
    try (apply lang_cat_eps in H; exact H).
Qed.

Lemma lang_alt_smart (r1 r2 : regex) (s : string) :
  lang (alt r1 r2) s <-> lang (Alt r1 r2) s.
Proof.
  destruct r1, r2; simpl; split; intros H;
    try exact H;
    try (destruct (lang_void _ H));
    try (apply lang_alt_r; exact H);
    try (apply lang_alt_l; exact H);
    try (apply lang_alt_inv in H; destruct H as [H|H];
         [try exact H; try destruct (lang_void _ H)
         |try exact H; try destruct (lang_void _ H)]).
Qed.

Lemma lang_star_cons_inv (r : regex) (c : ascii) (s : string) :
  lang (Star r) (String c s) ->
  exists s1 s2, s = s1 ++ s2 /\ lang r (String c s1) /\ lang (Star r) s2.
Proof.
  intros H. remember (Star r) as r' eqn:Hr. remember (String c s) as t eqn:Ht.
  revert Hr Ht.
  induction H as [|p d Hd|r1 r2 s1 s2 H1 IH1 H2 IH2|r1 r2 t H IH|r1 r2 t H IH
                 |r0|r0 s1 s2 H1 IH1 H2 IH2]; intros Hr Ht; try discriminate.
  injection Hr as ->. destruct s1 as [|d s1].
  - simpl in Ht. exact (IH2 eq_refl Ht).
  - simpl in Ht. injection Ht as -> <-. exists s1, s2. now repeat split.
Qed.

Lemma lang_deriv (c : ascii) (r : regex) (s : string) :
  lang (deriv c r) s <-> lang r (String c s).
Proof.
  revert s.
  induction r as [| |p|r1 IH1 r2 IH2|r1 IH1 r2 IH2|r IH]; intros s; simpl.
  - split; intros H; destruct (lang_void _ H).
  - split; intros H; [destruct (lang_void _ H)|].
    apply lang_eps_inv in H. discriminate H.
  - destruct (p c) eqn:Hp; split; intros H.
    + apply lang_eps_inv in H. subst s. now constructor.
    + apply lang_set_inv in H. destruct H as (d & Heq & _).
      injection Heq as _ ->. constructor.
    + destruct (lang_void _ H).
    + apply lang_set_inv in H. destruct H as (d & Heq & Hd).
      injection Heq as -> _. rewrite Hp in Hd. discriminate Hd.
  - destruct (nullable r1) eqn:Hnull; split; intros H.
    + apply lang_alt_smart, lang_alt_inv in H. destruct H as [H|H].
      * apply lang_cat_smart, lang_cat_inv in H.
        destruct H as (s1 & s2 & -> & H1 & H2).
        change (String c (s1 ++ s2)) with (String c s1 ++ s2).
        constructor; [now apply IH1|exact H2].
      * change (String c s) with (EmptyString ++ String c s).
        constructor; [now apply nullable_lang|now apply IH2].
    + apply lang_alt_smart. apply lang_cat_inv in H.
      destruct H as (s1 & s2 & Heq & H1 & H2). destruct s1 as [|d s1].
      * simpl in Heq. subst s2. apply lang_alt_r. now apply IH2.
      * simpl in Heq. injection Heq as <- ->. apply lang_alt_l.
        apply lang_cat_smart. constructor; [now apply IH1|exact H2].
    + apply lang_cat_smart, lang_cat_inv in H.
      destruct H as (s1 & s2 & -> & H1 & H2).
      change (String c (s1 ++ s2)) with (String c s1 ++ s2).
      constructor; [now apply IH1|exact H2].
    + apply lang_cat_smart. apply lang_cat_inv in H.
      destruct H as (s1 & s2 & Heq & H1 & H2). destruct s1 as [|d s1].
      * apply lang_nullable in H1. rewrite H1 in Hnull. discriminate Hnull.
      * simpl in Heq. injection Heq as <- ->.
        constructor; [now apply IH1|exact H2].
  - split; intros H.
    + apply lang_alt_smart, lang_alt_inv in H. destruct H as [H|H].
      * apply lang_alt_l. now apply IH1.
      * apply lang_alt_r. now apply IH2.
    + apply lang_alt_smart. apply lang_alt_inv in H. destruct H as [H|H].
      * apply lang_alt_l. now apply IH1.
      * apply lang_alt_r. now apply IH2.
  - split; intros H.
    + apply lang_cat_smart, lang_cat_inv in H.
      destruct H as (s1 & s2 & -> & H1 & H2).
      change (String c (s1 ++ s2)) with (String c s1 ++ s2).
      constructor; [now apply IH|exact H2].
    + apply lang_star_cons_inv in H. destruct H as (s1 & s2 & -> & H1 & H2).
      apply lang_cat_smart. constructor; [now apply IH|exact H2].
Qed.

(** What [longest_prefix] finds is a text of the language, at the
    beginning of the string. *)
Lemma longest_prefix_sound (r : regex) (s : string) (n : nat) :
  longest_prefix r s = Some n ->
  exists p w, s = p ++ w /\ String.length p = n /\ lang r p.
Proof.
  revert r n. induction s as [|c s IH]; intros r n; simpl.
  - destruct (nullable r) eqn:Hnull; [|discriminate].
    intros H. injection H as <-. exists EmptyString, EmptyString.
    repeat split. now apply nullable_lang.
  - destruct (longest_prefix (deriv c r) s) as [m|] eqn:Hlongest.
    + intros H. injection H as <-.
      destruct (IH _ _ Hlongest) as (p & w & -> & <- & Hp).
      exists (String c p), w. repeat split. now apply lang_deriv.
    + destruct (nullable r) eqn:Hnull; [|discriminate].
      intros H. injection H as <-. exists EmptyString, (String c s).
      repeat split. now apply nullable_lang.
Qed.

(** A text of the language at the beginning of the string is found, or
    a longer one. *)
Lemma longest_prefix_complete (r : regex) (p w : string) :
  lang r p ->
  exists m, longest_prefix r (p ++ w) = Some m /\ (String.length p <= m)%nat.
Proof.
  revert r. induction p as [|c p IH]; intros r H; simpl.
  - apply lang_nullable in H. destruct w as [|c w]; simpl.
    + rewrite H. exists O. split; [reflexivity|lia].
    + destruct (longest_prefix (deriv c r) w) as [m|].
      * exists (S m). split; [reflexivity|lia].
      * rewrite H. exists O. split; [reflexivity|lia].
  - apply lang_deriv in H. destruct (IH _ H) as (m & Hm & Hle).
    rewrite Hm. exists (S m). split; [reflexivity|lia].
Qed.

Lemma longest_prefix_whole (r : regex) (q : string) :
  lang r q -> longest_prefix r q = Some (String.length q).
Proof.
  intros H. destruct (longest_prefix_complete r q EmptyString H) as (m & Hm & Hle).
  rewrite str_app_nil_r in Hm. rewrite Hm. f_equal.
  destruct (longest_prefix_sound r q m Hm) as (p & w & Heq & Hp & _).
  apply (f_equal String.length) in Heq. rewrite length_append in Heq. lia.
Qed.

(** *** From the grammar of a qualifier to the rule *)











(** *** From the rule to the shape of its texts *)










(** *** Letters, and the characters that set a qualifier off *)




(** *** No match begins inside the title *)

Lemma ends_open_cons (c : ascii) (u : string) :
  u <> EmptyString -> ends_open (String c u) = ends_open u.
Proof. destruct u; [contradiction|reflexivity]. Qed.




(** *** The match ends with the qualifier *)







End Properties.

(* ================================================================= *)
(** * The properties on the small host *)

Section OnDemoHost.

#[local] Existing Instance Demo.demo_platform.

Import Demo.

Example sanitize_disk_1_of_2 :
  compat_chop_expressions re_expressions (Some "Game (Disk 1 of 2)") = Some "Game".
Proof. vm_compute. reflexivity. Qed.

Example sanitize_side_b :
  compat_chop_expressions re_expressions (Some "Jet Set - side B [tzx]")
  = Some "Jet Set[tzx]".
Proof. vm_compute. reflexivity. Qed.

(** Every qualifier of the form " (<keyword> <id>)" or
    " (<keyword> <id> of <n>)" after "Game" is removed whole. *)
Example sanitize_every_keyword :
  forallb (fun keyword =>
    forallb (fun id =>
      forallb (fun count =>
        match compat_chop_expressions re_expressions
                (Some ("Game (" ++ keyword ++ " " ++ id ++ count ++ ")")) with
        | Some sanitized => String.eqb sanitized "Game"
        | None => false
        end)
        [""; " of 1"; " of 2"; " of 3"; " of 4"; " OF 4"])
      ["a"; "b"; "c"; "d"; "A"; "B"; "C"; "D"; "1"; "2"; "3"; "4"])
    ["disk"; "tape"; "side"; "part"; "Disk"; "Tape"; "Side"; "Part"; "DISK"]
  = true.
Proof. vm_compute. reflexivity. Qed.

(** A number too large for an [int] loses its high bits. *)
Example atoi_beyond_int : CStr.atoi "99999999999" = 1215752191.
Proof. vm_compute. reflexivity. Qed.

Example savestate_read_beyond_int :
  od_quicksave_slot
    (settings_current
       (snd (savestate_read (Some "/saves/99999999999.szx") unqueried_state)))
  = 1215752191.
Proof. vm_compute. reflexivity. Qed.

Example save_dir_of_game : quicksave_get_current_dir unqueried_state = Some save_dir.
Proof. vm_compute. reflexivity. Qed.

Example filename_of_slot_7 :
  quicksave_get_filename unqueried_state 7 = Some "/cfg/savestates/Game/07.szx".
Proof. vm_compute. reflexivity. Qed.

(** C1, on the code. The Save Directory exists, contains the valid
    entry "00.szx" (a scan of it returns 1) and differs from the cached
    directory (none yet): [check_any_savestate_exist] records the
    directory, opens nothing, and returns 0.  Only the next query scans
    the directory and returns 1. *)
Theorem check_any_savestate_exist_skips_first_scan :
  quicksave_get_current_dir unqueried_state = Some save_dir
  /\ check_dir_exist unqueried_state (Some save_dir) = 1
  /\ last_check_directory unqueried_state = None
  /\ is_savestate_name unqueried_state (Some "00.szx") = 1
  /\ fst (scan_directory_for_savestates (Some save_dir)
            (is_savestate_name unqueried_state) unqueried_state) = 1
  /\ check_any_savestate_exist unqueried_state
     = (0, game_state (game_host [] [(save_dir, one_save)]) ".szx" 0 (Some save_dir) 0)
  /\ fst (check_any_savestate_exist (snd (check_any_savestate_exist unqueried_state)))
     = 1.
Proof. vm_compute. repeat split; reflexivity. Qed.

(** C2, the claim as stated fails for an extension of three characters:
    with ".sz" configured, "000.sz" is accepted though it has three
    digits and not the length 2 + 3, and "00.sz" is rejected though it
    has the shape the specification asks for. *)
Lemma is_savestate_name_short_extension :
  String.length (od_quicksave_format (settings_current short_extension_state)) = 3%nat
  /\ utils_last_filename (Some "000.sz") 0 = Some "000.sz"
  /\ is_savestate_name short_extension_state (Some "000.sz") = 1
  /\ ~ slot_file_shape ".sz" "000.sz"
  /\ utils_last_filename (Some "00.sz") 0 = Some "00.sz"
  /\ is_savestate_name short_extension_state (Some "00.sz") = 0
  /\ slot_file_shape ".sz" "00.sz".
Proof.
  repeat split; try (vm_compute; reflexivity).
  intros [Hlength _]. discriminate Hlength.
Qed.

(** With ".szx" configured, "07.szx" in the Save Directory is a slot
    file and "7.szx" is not. *)
Lemma is_savestate_name_dotted_extension_witness :
  is_savestate_name unqueried_state (Some "/cfg/savestates/Game/07.szx") = 1
  /\ is_savestate_name unqueried_state (Some "7.szx") = 0.
Proof.
  assert (dotted_extension (od_quicksave_format (settings_current unqueried_state)))
    as Hdotted.
  { exists "s"%char, "z"%char, "x"%char. repeat split; discriminate. }
  split.
  - apply (proj1 (is_savestate_name_dotted_extension unqueried_state
                    "/cfg/savestates/Game/07.szx" Hdotted)).
    exists "07.szx". repeat split; vm_compute; reflexivity.
  - destruct (proj2 (is_savestate_name_dotted_extension unqueried_state
                       "7.szx" Hdotted)) as [Hzero|Hone].
    + exact Hzero.
    + vm_compute in Hone. discriminate Hone.
Defined.



(** A 128K snapshot with bit 3 of the paging register set: the screen
    is page 7. *)
Lemma savestate_get_screen_for_slot_copies_display_page_witness :
  buffer (snd (savestate_get_screen_for_slot snapshot_state 4))
  = map (demo_page 7) (seq 0 screen_size).
Proof.
  apply (savestate_get_screen_for_slot_copies_display_page snapshot_state 4
           {| libspectrum_snap_machine := LIBSPECTRUM_MACHINE_128;
              libspectrum_snap_out_128_memoryport := 8;
              libspectrum_snap_pages := demo_page |}).
  vm_compute. reflexivity.
Defined.

(** The screen of a slot without a file is black. *)
Lemma savestate_get_screen_for_slot_buffer_witness :
  buffer (snd (savestate_get_screen_for_slot no_file_state 3))
  = repeat x00 (Z.to_nat 6912).
Proof.
  apply (savestate_get_screen_for_slot_buffer no_file_state 3).
  vm_compute. left. reflexivity.
Defined.

(** C6, the claim as stated fails when the cached directory has been
    removed: the resolved directory equals the cached one and the cached
    result is true, yet the query returns 0. *)
Lemma check_any_savestate_exist_directory_removed :
  quicksave_get_current_dir removed_state = last_check_directory removed_state
  /\ last_check_directory_result removed_state = 1
  /\ fst (check_any_savestate_exist removed_state) = 0.
Proof. vm_compute. repeat split; reflexivity. Qed.

(** The cached answer is kept for a directory that a scan would now
    find empty. *)
Lemma check_any_savestate_exist_sticky_witness :
  check_any_savestate_exist emptied_state = (1, emptied_state)
  /\ fst (scan_directory_for_savestates (Some save_dir)
            (is_savestate_name emptied_state) emptied_state) = 0.
Proof.
  split.
  - apply (check_any_savestate_exist_sticky emptied_state save_dir).
    + vm_compute. reflexivity.
    + vm_compute. discriminate.
    + reflexivity.
    + vm_compute. discriminate.
  - vm_compute. reflexivity.
Defined.

(** C7, the claim as stated fails when the directory cannot be closed:
    the entry "00.szx" is enumerated and satisfies the predicate, yet
    the scan returns 0. *)
Lemma scan_directory_for_savestates_close_fails :
  compat_opendir (host_state unclosable_state) save_dir = Some unclosable_dir
  /\ In (Dir_name "00.szx") (dir_items unclosable_dir)
  /\ scan_loop (is_savestate_name unclosable_state) (dir_items unclosable_dir) = Some 1
  /\ is_savestate_name unclosable_state (Some "00.szx") = 1
  /\ fst (scan_directory_for_savestates (Some save_dir)
            (is_savestate_name unclosable_state) unclosable_state) = 0.
Proof.
  repeat split; try (vm_compute; reflexivity).
  simpl. right. right. left. reflexivity.
Qed.

(** A directory with a save, a directory without one, and a directory
    that does not exist. *)
Lemma scan_directory_for_savestates_result_witness :
  fst (scan_directory_for_savestates (Some save_dir)
         (is_savestate_name unqueried_state) unqueried_state) = 1
  /\ fst (scan_directory_for_savestates (Some save_dir)
            (is_savestate_name emptied_state) emptied_state) = 0
  /\ fst (scan_directory_for_savestates (Some "/nowhere")
            (is_savestate_name emptied_state) emptied_state) = 0.
Proof.
  split; [|split].
  - destruct (scan_directory_for_savestates_result unqueried_state save_dir
                (is_savestate_name unqueried_state)) as [_ Hopened].
    destruct (Hopened one_save eq_refl) as [Hmatch _].
    apply (Hmatch ["."; ".."] "00.szx" [] eq_refl).
    + repeat constructor.
    + vm_compute. discriminate.
  - destruct (scan_directory_for_savestates_result emptied_state save_dir
                (is_savestate_name emptied_state)) as [_ Hopened].
    destruct (Hopened empty_dir eq_refl) as [_ [Hend _]].
    apply (Hend ["."; ".."] eq_refl).
    repeat constructor.
  - destruct (scan_directory_for_savestates_result emptied_state "/nowhere"
                (is_savestate_name emptied_state)) as [Hclosed _].
    apply Hclosed. reflexivity.
Defined.

(** C8, the claim as stated fails when the path does not fit: the Save
    Directory resolves, in full, and the file name returned for slot 7
    stops after the first digit: its base name is "0", without the
    second digit and without the extension. *)
Lemma quicksave_get_filename_truncated :
  quicksave_get_current_dir long_config_state
    = Some (long_config ++ "/savestates/Game")
  /\ quicksave_get_filename long_config_state 7
    = Some (long_config ++ "/savestates/Game" ++ "/0")
  /\ utils_last_filename (quicksave_get_filename long_config_state 7) 0 = Some "0".
Proof. vm_compute. repeat split; reflexivity. Qed.

(** Slot 7 of "Game". *)
Lemma quicksave_get_filename_two_digits_witness :
  quicksave_get_filename unqueried_state 7 = Some "/cfg/savestates/Game/07.szx".
Proof.
  apply (quicksave_get_filename_two_digits unqueried_state 7 save_dir).
  - lia.
  - vm_compute. reflexivity.
  - vm_compute. lia.
Defined.




(** The other conditions of the amended claim are needed as well: a
    title that ends with an opening bracket, a qualifier that begins
    with its keyword after the letters "par", and a remainder "of 2"
    each give two names with different Program Identities. *)
Example sanitize_without_separation :
  compat_chop_expressions re_expressions (Some "Game((disk 2)") = Some "Game"
  /\ compat_chop_expressions re_expressions (Some "Game(-(disk 1)") = Some "Game("
  /\ compat_chop_expressions re_expressions (Some "Gamepartape 1") = Some "Gamepe 1"
  /\ compat_chop_expressions re_expressions (Some "Gamepartape 2") = Some "Gamepe 2"
  /\ compat_chop_expressions re_expressions (Some "Game disk 1of 2") = Some "Game"
  /\ compat_chop_expressions re_expressions (Some "Game disk 1-of 2")
     = Some "Gameof 2".
Proof. vm_compute. repeat split; reflexivity. Qed.


(** C10, the claim as stated fails for a base name that begins with a
    sign: "-5" has no leading digit, and selects slot -5, not 0. *)
Lemma savestate_read_signed_base_name :
  utils_last_filename (Some "/saves/-5.szx") 1 = Some "-5"
  /\ CStr.isdigit (char_at "-5" 0) = false
  /\ od_quicksave_slot
       (settings_current (snd (savestate_read (Some "/saves/-5.szx") unqueried_state)))
     = -5
  /\ od_quicksave_slot
       (settings_current (snd (savestate_write (Some "/saves/-5.szx") unqueried_state)))
     = -5.
Proof. vm_compute. repeat split; reflexivity. Qed.

(** Reading "07.szx" fails, as slot 7 has no file, and leaves 7 as the
    default slot; reading "slot.szx" leaves 0. *)
Lemma savestate_read_write_set_slot_witness :
  fst (savestate_read (Some "/saves/07.szx") unqueried_state) = 1
  /\ od_quicksave_slot
       (settings_current (snd (savestate_read (Some "/saves/07.szx") unqueried_state)))
     = 7
  /\ od_quicksave_slot
       (settings_current (snd (savestate_read (Some "/saves/slot.szx") unqueried_state)))
     = 0.
Proof.
  destruct (savestate_read_write_set_slot unqueried_state
              (Some "/saves/07.szx") "07" eq_refl) as (_ & _ & Hslot & _).
  destruct (savestate_read_write_set_slot unqueried_state
              (Some "/saves/slot.szx") "slot" eq_refl)
    as (_ & _ & Hword & _ & Hzero & _).
  split; [vm_compute; reflexivity|].
  split; [exact Hslot|].
  rewrite Hword. apply Hzero. vm_compute. reflexivity.
Defined.

End OnDemoHost.

(* ================================================================= *)
(** * Further properties of the module *)

(** ** Strings *)

Lemma substring_length_le (n : nat) (s : string) :
  (String.length (substring 0 n s) <= n)%nat.
Proof.
  revert n. induction s as [|c s IH]; intros [|n]; simpl; try lia.
  specialize (IH n). lia.
Qed.

Lemma snprintf_length (size : nat) (out : string) :
  size <> O -> (String.length (CStr.snprintf size out) < size)%nat.
Proof.
  intros Hsize. unfold CStr.snprintf.
  pose proof (substring_length_le (size - 1) out). lia.
Qed.

Lemma append_inv_head (p a b : string) : p ++ a = p ++ b -> a = b.
Proof.
  induction p as [|c p IH]; simpl; intros H; [exact H|].
  injection H as H. exact (IH H).
Qed.

Lemma append_inv_tail (a b t : string) : a ++ t = b ++ t -> a = b.
Proof.
  revert b. induction a as [|c a IH]; intros [|d b] H; simpl in H.
  - reflexivity.
  - exfalso. apply (f_equal String.length) in H. simpl in H.
    rewrite length_append in H. lia.
  - exfalso. apply (f_equal String.length) in H. simpl in H.
    rewrite length_append in H. lia.
  - injection H as -> H. f_equal. exact (IH b H).
Qed.

Lemma append_assoc (a b c : string) : (a ++ b) ++ c = a ++ b ++ c.
Proof. induction a as [|x a IH]; simpl; [reflexivity|now rewrite IH]. Qed.

Lemma some_eq {A : Type} (a b : A) : Some a = Some b -> a = b.
Proof. intros H. now injection H. Qed.

Lemma PATH_MAX_nonzero : PATH_MAX <> O.
Proof. discriminate. Qed.

Section Further.

Context {P : platform}.

(** ** Resolving paths *)

Lemma quicksave_get_current_dir_none (st : state) :
  quicksave_get_current_dir st = None <->
  last_filename (host_state st) = None
  \/ compat_get_config_path (host_state st) = None.
Proof.
  unfold quicksave_get_current_dir.
  destruct (last_filename (host_state st)) as [name|];
    destruct (compat_get_config_path (host_state st)) as [cfgdir|];
    split; intros H; try discriminate; auto;
    destruct H as [H|H]; discriminate H.
Qed.

Lemma quicksave_get_filename_fits (st : state) (slot : Z) (dir : string) :
  quicksave_get_current_dir st = Some dir ->
  (String.length dir + 1 + String.length (CStr.fmt_02d slot)
   + String.length (od_quicksave_format (settings_current st)) < PATH_MAX)%nat ->
  quicksave_get_filename st slot =
    Some (dir ++ FUSE_DIR_SEP_STR ++ CStr.fmt_02d slot
            ++ od_quicksave_format (settings_current st)).
Proof.
  intros Hdir Hfits. unfold quicksave_get_filename. rewrite Hdir. f_equal.
  apply snprintf_fits. rewrite !length_append.
  change (String.length FUSE_DIR_SEP_STR) with 1%nat. lia.
Qed.

(** X1. Whatever the program, the configuration directory and the
    settings, a resolved Save Directory and a resolved Save File path
    have fewer than [PATH_MAX] characters. *)
Theorem resolved_paths_below_PATH_MAX (st : state) :
  (forall dir, quicksave_get_current_dir st = Some dir ->
               (String.length dir < PATH_MAX)%nat)
  /\ (forall slot filename,
         quicksave_get_filename st slot = Some filename ->
         (String.length filename < PATH_MAX)%nat).
Proof.
  split.
  - intros dir. unfold quicksave_get_current_dir.
    destruct (last_filename (host_state st)); [|discriminate].
    destruct (compat_get_config_path (host_state st)); [|discriminate].
    destruct (od_quicksave_per_machine (settings_current st) =? 0);
      intros H; injection H as <-; apply snprintf_length, PATH_MAX_nonzero.
  - intros slot filename. unfold quicksave_get_filename.
    destruct (quicksave_get_current_dir st); [|discriminate].
    intros H. injection H as <-. apply snprintf_length, PATH_MAX_nonzero.
Qed.

(** X2. Two different slots between 0 and 99 whose paths fit [PATH_MAX]
    never have the same Save File path. *)
Theorem quicksave_get_filename_distinct_slots
    (st : state) (slot1 slot2 : Z) (dir : string) :
  0 <= slot1 <= 99 ->
  0 <= slot2 <= 99 ->
  quicksave_get_current_dir st = Some dir ->
  (String.length dir + 3 + String.length (od_quicksave_format (settings_current st))
   < PATH_MAX)%nat ->
  slot1 <> slot2 ->
  quicksave_get_filename st slot1 <> quicksave_get_filename st slot2.
Proof.
  intros Hslot1 Hslot2 Hdir Hfits Hdistinct. revert Hdistinct.
  cut (quicksave_get_filename st slot1 = quicksave_get_filename st slot2 ->
       slot1 = slot2); [tauto|].
  rewrite (quicksave_get_filename_fits st slot1 dir Hdir),
          (quicksave_get_filename_fits st slot2 dir Hdir);
    rewrite ?(fmt_02d_two_digits Hslot1), ?(fmt_02d_two_digits Hslot2);
    try (change (String.length (two_digits slot1)) with 2%nat; lia);
    try (change (String.length (two_digits slot2)) with 2%nat; lia).
  intros H. apply some_eq in H.
  apply append_inv_head in H. apply append_inv_head in H.
  apply append_inv_tail in H.
  rewrite <- (atoi_two_digits slot1 Hslot1), <- (atoi_two_digits slot2 Hslot2).
  now rewrite H.
Qed.

(** X3. Without the per-machine setting, and with the directories
    fitting [PATH_MAX], two programs with different Program Identities
    never share a Save Directory under one configuration directory. *)
Theorem quicksave_get_current_dir_distinct_programs
    (st1 st2 : state) (cfgdir program1 program2 : string) :
  od_quicksave_per_machine (settings_current st1) = 0 ->
  od_quicksave_per_machine (settings_current st2) = 0 ->
  compat_get_config_path (host_state st1) = Some cfgdir ->
  compat_get_config_path (host_state st2) = Some cfgdir ->
  quicksave_get_current_program st1 = Some program1 ->
  quicksave_get_current_program st2 = Some program2 ->
  (String.length cfgdir + 12 + String.length program1 < PATH_MAX)%nat ->
  (String.length cfgdir + 12 + String.length program2 < PATH_MAX)%nat ->
  program1 <> program2 ->
  quicksave_get_current_dir st1 <> quicksave_get_current_dir st2.
Proof.
  intros Hflag1 Hflag2 Hcfg1 Hcfg2 Hprogram1 Hprogram2 Hfits1 Hfits2 Hdistinct.
  revert Hdistinct.
  cut (quicksave_get_current_dir st1 = quicksave_get_current_dir st2 ->
       program1 = program2); [tauto|].
  unfold quicksave_get_current_dir.
  rewrite Hprogram1, Hprogram2, Hflag1, Hflag2, Hcfg1, Hcfg2.
  assert (last_filename (host_state st1) <> None) as Hname1.
  { intros Hnone. unfold quicksave_get_current_program in Hprogram1.
    rewrite Hnone in Hprogram1. discriminate Hprogram1. }
  assert (last_filename (host_state st2) <> None) as Hname2.
  { intros Hnone. unfold quicksave_get_current_program in Hprogram2.
    rewrite Hnone in Hprogram2. discriminate Hprogram2. }
  destruct (last_filename (host_state st1)); [|contradiction].
  destruct (last_filename (host_state st2)); [|contradiction].
  change (0 =? 0) with true. cbv iota. unfold CStr.fmt_s.
  rewrite !snprintf_fits.
  - intros H. apply some_eq in H.
    do 4 apply append_inv_head in H. exact H.
  - rewrite !length_append. change (String.length FUSE_DIR_SEP_STR) with 1%nat.
    change (String.length "savestates") with 10%nat. lia.
  - rewrite !length_append. change (String.length FUSE_DIR_SEP_STR) with 1%nat.
    change (String.length "savestates") with 10%nat. lia.
Qed.

(** ** Slot numbers and slot file names *)

Lemma two_digits_are_digits (slot : Z) :
  0 <= slot <= 99 ->
  CStr.isdigit (char_at (two_digits slot) 0) = true
  /\ CStr.isdigit (char_at (two_digits slot) 1) = true.
Proof.
  intros Hslot.
  assert (forall n : nat, (n < 100)%nat ->
            CStr.isdigit (char_at (two_digits (Z.of_nat n)) 0) = true
            /\ CStr.isdigit (char_at (two_digits (Z.of_nat n)) 1) = true) as Hall.
  { intros n Hn.
    do 100 (destruct n as [|n]; [vm_compute; split; reflexivity|]).
    lia. }
  rewrite <- (Z2Nat.id slot) by lia. apply Hall. lia.
Qed.

(** A rendering by ["%02d"] that has two characters, the first of them
    a digit, is the rendering of a number from 0 to 99. *)
Lemma fmt_02d_two_characters (slot : Z) :
  String.length (CStr.fmt_02d slot) = 2%nat ->
  CStr.isdigit (char_at (CStr.fmt_02d slot) 0) = true ->
  0 <= slot <= 99.
Proof.
  unfold CStr.fmt_02d. destruct slot as [|p|p]; [lia| |].
  - pose proof (DecimalPos.Unsigned.of_to p) as Hvalue.
    unfold Z.to_int. destruct (Pos.to_uint p) as [|u|u|u|u|u|u|u|u|u|u];
      cbn; intros Hlength _;
      try discriminate Hvalue;
      (destruct u as [|v|v|v|v|v|v|v|v|v|v];
       [vm_compute in Hvalue; try discriminate Hvalue;
        injection Hvalue as <-; lia|..];
       (destruct v; cbn in Hlength; try discriminate Hlength;
        vm_compute in Hvalue; try discriminate Hvalue;
        injection Hvalue as <-; lia)).
  - unfold Z.to_int. destruct (Pos.to_uint p); cbn; intros _ Hdigit;
      discriminate Hdigit.
Qed.

Lemma char_at_append_0 (s t : string) :
  s <> EmptyString -> char_at (s ++ t) 0 = char_at s 0.
Proof. destruct s; [contradiction|reflexivity]. Qed.

(** X4. Whatever extension is configured, [is_savestate_name] returns 0
    or 1, and a name it accepts has a base name of exactly six
    characters that begins with two ASCII digits and contains a dot. *)
Theorem is_savestate_name_accepts_only (st : state) (name : option string) :
  (is_savestate_name st name = 0 \/ is_savestate_name st name = 1)
  /\ (is_savestate_name st name = 1 ->
      exists filename extension,
        utils_last_filename name 0 = Some filename
        /\ String.length filename = 6%nat
        /\ CStr.isdigit (char_at filename 0) = true
        /\ CStr.isdigit (char_at filename 1) = true
        /\ CStr.strrchr filename "." = Some extension
        /\ CStr.strncmp extension (od_quicksave_format (settings_current st)) 4 = 0).
Proof.
  unfold is_savestate_name.
  destruct name as [name|]; [|split; [now left|discriminate]].
  destruct (utils_last_filename (Some name) 0) as [filename|] eqn:Hfile;
    [|split; [now left|discriminate]].
  destruct (String.length filename =? 6)%nat eqn:Hlength; cbn [negb];
    [|split; [now left|discriminate]].
  destruct (CStr.strrchr filename ".") as [extension|] eqn:Hdot;
    [|split; [now left|discriminate]].
  destruct (CStr.strncmp extension (od_quicksave_format (settings_current st)) 4 =? 0)
    eqn:Hextension; cbn [negb]; [|split; [now left|discriminate]].
  destruct (CStr.isdigit (char_at filename 0)) eqn:Hfirst; cbn [negb orb];
    [|split; [now left|discriminate]].
  destruct (CStr.isdigit (char_at filename 1)) eqn:Hsecond; cbn [negb orb];
    [|split; [now left|discriminate]].
  split; [now right|]. intros _. exists filename, extension.
  repeat split; try reflexivity; try assumption.
  - now apply Nat.eqb_eq.
  - now apply Z.eqb_eq.
Qed.

Lemma is_savestate_name_two_digits (st : state) (name : string) (slot : Z) :
  dotted_extension (od_quicksave_format (settings_current st)) ->
  0 <= slot <= 99 ->
  utils_last_filename (Some name) 0
    = Some (two_digits slot ++ od_quicksave_format (settings_current st)) ->
  is_savestate_name st (Some name) = 1.
Proof.
  intros (a & b & c & Hformat & Ha & Hb & Hc & _) Hslot Hbase.
  destruct (two_digits_are_digits slot Hslot) as [Hfirst Hsecond].
  unfold is_savestate_name. rewrite Hbase, Hformat.
  unfold two_digits in *. cbn [append String.length Nat.eqb negb CStr.strrchr].
  apply Ascii.eqb_neq in Ha, Hb, Hc. rewrite Ha, Hb, Hc.
  change (Ascii.eqb "." ".") with true. cbn [CStr.strncmp].
  rewrite !Ascii.eqb_refl. change (0 =? 0) with true. cbn [negb].
  unfold char_at in *. cbn [String.get] in *.
  rewrite Hfirst, Hsecond. reflexivity.
Qed.

(** X5. With an extension of the form [.xxx] configured, a file whose
    base name is the ["%02d"] rendering of a slot followed by the
    extension - the name [quicksave_get_filename] gives the slot's file
    - is accepted by [is_savestate_name] exactly when the slot is
    between 0 and 99. *)
Theorem is_savestate_name_own_file (st : state) (name : string) (slot : Z) :
  dotted_extension (od_quicksave_format (settings_current st)) ->
  utils_last_filename (Some name) 0
    = Some (CStr.fmt_02d slot ++ od_quicksave_format (settings_current st)) ->
  (is_savestate_name st (Some name) = 1 <-> 0 <= slot <= 99).
Proof.
  intros Hdotted Hbase. split.
  - intros Haccepted.
    destruct (is_savestate_name_accepts_only st (Some name)) as [_ Honly].
    destruct (Honly Haccepted)
      as (filename & extension & Hfile & Hlength & Hfirst & _).
    rewrite Hbase in Hfile. apply some_eq in Hfile. subst filename.
    destruct Hdotted as (a & b & c & Hformat & _).
    rewrite Hformat in Hlength, Hfirst.
    rewrite length_append in Hlength. cbn [String.length] in Hlength.
    assert (CStr.fmt_02d slot <> EmptyString) as Hnonempty.
    { intros Hempty. rewrite Hempty in Hlength. cbn in Hlength. lia. }
    rewrite (char_at_append_0 _ _ Hnonempty) in Hfirst.
    apply fmt_02d_two_characters; [lia|exact Hfirst].
  - intros Hslot. rewrite (fmt_02d_two_digits Hslot) in Hbase.
    exact (is_savestate_name_two_digits st name slot Hdotted Hslot Hbase).
Qed.

End Further.

Section FurtherStateful.

Context {P : platform}.

(** ** Loading *)

Lemma savestate_read_internal_existing (st : state) (slot : Z) (filename : string) :
  quicksave_get_filename st slot = Some filename ->
  compat_file_exists (host_state st) filename = true ->
  savestate_read_internal slot st =
    (fst (utils_open_file filename 9 (host_state st)),
     {| host_state := snd (utils_open_file filename 9 (host_state st));
        settings_current := settings_current st;
        last_check_directory := last_check_directory st;
        last_check_directory_result := last_check_directory_result st;
        calls := calls st ++ [Call_utils_open_file filename 9;
                              load_report slot
                                (fst (utils_open_file filename 9 (host_state st)))] |}).
Proof.
  intros Hname Hexists. unfold savestate_read_internal. run_monad.
  unfold check_current_savestate_exist. rewrite Hname, Hexists.
  change (1 =? 0) with false. cbv iota. run_monad. rewrite Hname.
  destruct (utils_open_file filename 9 (host_state st)) as [error h].
  unfold load_report. cbn [fst snd].
  destruct (negb (error =? 0)); run_monad; cbn [calls host_state settings_current
      last_check_directory last_check_directory_result];
    rewrite <- app_assoc; reflexivity.
Qed.

(** X6. When the file of the default slot exists, [quicksave_load]
    pauses the emulation, hands the file to [utils_open_file] with the
    mode 9, reports the outcome, refreshes the display and resumes the
    emulation, in this order and also when the load fails; it returns
    what [utils_open_file] returned and leaves the settings and the
    cache as they were. *)
Theorem quicksave_load_existing_slot (st : state) (filename : string) :
  quicksave_get_filename st (od_quicksave_slot (settings_current st)) = Some filename ->
  compat_file_exists (host_state st) filename = true ->
  quicksave_load st =
    (fst (utils_open_file filename 9 (host_state st)),
     {| host_state := snd (utils_open_file filename 9 (host_state st));
        settings_current := settings_current st;
        last_check_directory := last_check_directory st;
        last_check_directory_result := last_check_directory_result st;
        calls := calls st ++
                 [Call_fuse_emulation_pause;
                  Call_utils_open_file filename 9;
                  load_report (od_quicksave_slot (settings_current st))
                    (fst (utils_open_file filename 9 (host_state st)));
                  Call_display_refresh_all;
                  Call_fuse_emulation_unpause] |}).
Proof.
  intros Hname Hexists. unfold quicksave_load. run_monad.
  unfold check_current_savestate_exist at 1. rewrite Hname, Hexists.
  change (1 =? 0) with false. cbv iota. run_monad. cbn [settings_current].
  rewrite (savestate_read_internal_existing _ _ filename) by assumption.
  cbn [host_state settings_current last_check_directory
       last_check_directory_result calls].
  rewrite <- !app_assoc. reflexivity.
Qed.

(** X7. Reading by the path that [quicksave_get_filename] gives a slot
    from 0 to 99 (a path whose base name without extension is the two
    digits) makes that slot the default slot and, when the file exists,
    opens exactly that path; when it does not exist, nothing is opened
    and the result is 1. *)
Theorem savestate_read_own_path (st : state) (slot : Z) (path : string) :
  0 <= slot <= 99 ->
  quicksave_get_filename st slot = Some path ->
  utils_last_filename (Some path) 1 = Some (two_digits slot) ->
  od_quicksave_slot (settings_current (snd (savestate_read (Some path) st))) = slot
  /\ (compat_file_exists (host_state st) path = true ->
      fst (savestate_read (Some path) st)
        = fst (utils_open_file path 9 (host_state st))
      /\ calls (snd (savestate_read (Some path) st))
         = (calls st ++ [Call_utils_open_file path 9;
                         load_report slot
                           (fst (utils_open_file path 9 (host_state st)))])%list)
  /\ (compat_file_exists (host_state st) path = false ->
      savestate_read (Some path) st = (1, with_slot st slot)).
Proof.
  intros Hslot Hpath Hbase.
  assert (savestate_read (Some path) st
          = savestate_read_internal slot (with_slot st slot)) as Hread.
  { unfold savestate_read. rewrite Hbase, (atoi_two_digits slot Hslot).
    run_monad. reflexivity. }
  rewrite Hread. split; [|split].
  - rewrite savestate_read_internal_settings. reflexivity.
  - intros Hexists.
    rewrite (savestate_read_internal_existing (with_slot st slot) slot path)
      by assumption.
    split; reflexivity.
  - intros Hmissing. apply savestate_read_internal_missing.
    unfold check_current_savestate_exist.
    change (quicksave_get_filename (with_slot st slot) slot)
      with (quicksave_get_filename st slot).
    rewrite Hpath. cbn [with_slot host_state]. now rewrite Hmissing.
Qed.

(** X8. [check_current_savestate_exist_savename] foretells
    [savestate_read]: for a path it answers 0 for, [savestate_read]
    returns 1 and calls nothing, yet changes the default slot to the
    number in the name; for a path it answers otherwise for,
    [savestate_read] hands the slot's file to [utils_open_file]. *)
Theorem savestate_read_after_check (st : state) (path : string) (answer : Z) :
  check_current_savestate_exist_savename st (Some path) = Some answer ->
  exists base,
    utils_last_filename (Some path) 1 = Some base
    /\ (answer = 0 ->
        savestate_read (Some path) st = (1, with_slot st (CStr.atoi base)))
    /\ (answer <> 0 ->
        exists filename,
          quicksave_get_filename st (CStr.atoi base) = Some filename
          /\ calls (snd (savestate_read (Some path) st))
             = (calls st ++ [Call_utils_open_file filename 9;
                             load_report (CStr.atoi base)
                               (fst (utils_open_file filename 9 (host_state st)))])%list).
Proof.
  unfold check_current_savestate_exist_savename.
  destruct (utils_last_filename (Some path) 1) as [base|] eqn:Hbase;
    [|discriminate].
  intros Hanswer. apply some_eq in Hanswer. exists base.
  assert (savestate_read (Some path) st
          = savestate_read_internal (CStr.atoi base) (with_slot st (CStr.atoi base)))
    as Hread.
  { unfold savestate_read. rewrite Hbase. run_monad. reflexivity. }
  split; [reflexivity|]. rewrite Hread. split.
  - intros Hzero. apply savestate_read_internal_missing.
    change (check_current_savestate_exist (with_slot st (CStr.atoi base)) (CStr.atoi base))
      with (check_current_savestate_exist st (CStr.atoi base)).
    now rewrite Hanswer.
  - intros Hfound. unfold check_current_savestate_exist in Hanswer.
    destruct (quicksave_get_filename st (CStr.atoi base)) as [filename|] eqn:Hname;
      [|now subst answer].
    destruct (compat_file_exists (host_state st) filename) eqn:Hexists;
      [|now subst answer].
    exists filename. split; [reflexivity|].
    rewrite (savestate_read_internal_existing
               (with_slot st (CStr.atoi base)) (CStr.atoi base) filename)
      by assumption.
    reflexivity.
Qed.

End FurtherStateful.

Section FurtherSaving.

Context {P : platform}.

(** ** Saving *)

Lemma setup_call_not_pause (c : call) : setup_call c -> ~ pause_call c.
Proof. destruct c; simpl; tauto. Qed.

(** [quicksave_create_dir] touches the host and the log only, and logs
    nothing but [compat_createdir] and [ui_error]. *)
Lemma quicksave_create_dir_log (st : state) :
  settings_current (snd (quicksave_create_dir st)) = settings_current st
  /\ last_check_directory (snd (quicksave_create_dir st)) = last_check_directory st
  /\ last_check_directory_result (snd (quicksave_create_dir st))
     = last_check_directory_result st
  /\ exists added,
       calls (snd (quicksave_create_dir st)) = (calls st ++ added)%list
       /\ Forall setup_call added.
Proof.
  unfold quicksave_create_dir. run_monad.
  destruct (quicksave_get_current_dir st) as [dir|]; run_monad.
  2:{ repeat split. exists []. now rewrite app_nil_r. }
  destruct (check_dir_exist st (Some dir) =? 0); run_monad.
  - destruct (compat_createdir dir (host_state st)) as [made h].
    destruct (made =? -1); run_monad; cbn [snd settings_current last_check_directory
        last_check_directory_result calls]; repeat split.
    + eexists. rewrite <- app_assoc. split; [reflexivity|].
      repeat constructor.
    + eexists. split; [reflexivity|]. repeat constructor.
  - destruct (check_dir_exist st (Some dir) =? -1); run_monad;
      cbn [snd settings_current last_check_directory
           last_check_directory_result calls]; repeat split.
    + eexists. split; [reflexivity|]. repeat constructor.
    + exists []. now rewrite app_nil_r.
Qed.

Lemma quicksave_get_filename_none (st : state) (slot : Z) :
  quicksave_get_filename st slot = None -> quicksave_get_current_dir st = None.
Proof.
  unfold quicksave_get_filename.
  destruct (quicksave_get_current_dir st); [discriminate|reflexivity].
Qed.

Lemma quicksave_create_dir_unresolved (st : state) :
  quicksave_get_current_dir st = None -> quicksave_create_dir st = (1, st).
Proof.
  intros Hdir. unfold quicksave_create_dir. run_monad. now rewrite Hdir.
Qed.

(** X9. When the Save Directory cannot be prepared
    ([quicksave_create_dir] fails: the directory does not resolve,
    cannot be examined, or cannot be created), saving a slot returns 1
    and does nothing beyond that attempt: [snapshot_write] is not
    called. *)
Theorem savestate_write_internal_unprepared (st : state) (slot : Z) :
  fst (quicksave_create_dir st) <> 0 ->
  savestate_write_internal slot st = (1, snd (quicksave_create_dir st))
  /\ (forall filename,
         In (Call_snapshot_write filename)
            (calls (snd (savestate_write_internal slot st))) ->
         In (Call_snapshot_write filename) (calls st)).
Proof.
  intros Hfailed.
  assert (savestate_write_internal slot st = (1, snd (quicksave_create_dir st)))
    as Hwrite.
  { unfold savestate_write_internal. run_monad.
    destruct (quicksave_get_filename st slot) as [filename|] eqn:Hname; run_monad.
    - destruct (quicksave_create_dir st) as [failed st1]. cbn [fst snd] in *.
      apply Z.eqb_neq in Hfailed. rewrite Hfailed. reflexivity.
    - rewrite (quicksave_create_dir_unresolved st
                 (quicksave_get_filename_none st slot Hname)).
      reflexivity. }
  split; [exact Hwrite|].
  rewrite Hwrite. cbn [snd]. intros filename Hin.
  destruct (quicksave_create_dir_log st) as (_ & _ & _ & added & Hcalls & Hsetup).
  rewrite Hcalls in Hin. apply in_app_or in Hin. destruct Hin as [Hin|Hin].
  - exact Hin.
  - rewrite Forall_forall in Hsetup. destruct (Hsetup _ Hin).
Qed.

(** X10. When the Save Directory exists, saving a slot whose path
    resolves calls [snapshot_write] once, with that path, shows the
    report for its result and returns its result; no directory is
    created, and the settings and the cache stay as they were. *)
Theorem savestate_write_internal_existing_directory
    (st : state) (slot : Z) (dir filename : string) :
  quicksave_get_current_dir st = Some dir ->
  stat (host_state st) dir = STAT_OK ->
  quicksave_get_filename st slot = Some filename ->
  savestate_write_internal slot st =
    (fst (snapshot_write filename (host_state st)),
     {| host_state := snd (snapshot_write filename (host_state st));
        settings_current := settings_current st;
        last_check_directory := last_check_directory st;
        last_check_directory_result := last_check_directory_result st;
        calls := calls st ++ [Call_snapshot_write filename;
                              save_report slot
                                (fst (snapshot_write filename (host_state st)))] |}).
Proof.
  intros Hdir Hstat Hname.
  assert (quicksave_create_dir st = (0, st)) as Hcreate.
  { unfold quicksave_create_dir. run_monad. rewrite Hdir. run_monad.
    unfold check_dir_exist. rewrite Hstat. reflexivity. }
  unfold savestate_write_internal. run_monad. rewrite Hname, Hcreate.
  change (negb (0 =? 0)) with false. cbv iota. run_monad.
  destruct (snapshot_write filename (host_state st)) as [error h].
  unfold save_report. cbn [fst snd].
  destruct (negb (error =? 0)); run_monad;
    cbn [calls host_state settings_current last_check_directory
         last_check_directory_result];
    rewrite <- app_assoc; reflexivity.
Qed.

(** X11. When [stat] reports the Save Directory missing, saving a slot
    first calls [compat_createdir]; if that returns -1, an error is
    shown, 1 is returned and nothing is written; otherwise
    [snapshot_write] is called on the host as [compat_createdir] left
    it, with the path resolved before the directory was made, and its
    result is returned. *)
Theorem savestate_write_internal_missing_directory
    (st : state) (slot : Z) (dir filename : string) :
  quicksave_get_current_dir st = Some dir ->
  stat (host_state st) dir = STAT_ENOENT ->
  quicksave_get_filename st slot = Some filename ->
  let made := compat_createdir dir (host_state st) in
  let written := snapshot_write filename (snd made) in
  (fst made = -1 ->
   fst (savestate_write_internal slot st) = 1
   /\ host_state (snd (savestate_write_internal slot st)) = snd made
   /\ calls (snd (savestate_write_internal slot st))
      = (calls st ++
         [Call_compat_createdir dir;
          Call_ui_error ("error creating savestate directory '" ++ dir ++ "'")])%list)
  /\ (fst made <> -1 ->
      fst (savestate_write_internal slot st) = fst written
      /\ host_state (snd (savestate_write_internal slot st)) = snd written
      /\ calls (snd (savestate_write_internal slot st))
         = (calls st ++
            [Call_compat_createdir dir;
             Call_snapshot_write filename;
             save_report slot (fst written)])%list).
Proof.
  intros Hdir Hstat Hname made written. subst made written.
  unfold savestate_write_internal, quicksave_create_dir. run_monad.
  rewrite Hname, Hdir. run_monad.
  unfold check_dir_exist. rewrite Hstat. change (0 =? 0) with true. cbv iota.
  run_monad.
  destruct (compat_createdir dir (host_state st)) as [made h]. cbn [fst snd].
  split.
  - intros ->. change (-1 =? -1) with true. cbv iota. run_monad.
    cbn [fst snd host_state calls]. rewrite <- app_assoc. repeat split.
  - intros Hmade. apply Z.eqb_neq in Hmade. rewrite Hmade. run_monad.
    change (negb (0 =? 0)) with false. cbv iota. cbn [host_state].
    destruct (snapshot_write filename h) as [error h']. unfold save_report.
    cbn [fst snd].
    destruct (negb (error =? 0)); run_monad; cbn [fst snd host_state calls];
      rewrite <- !app_assoc; repeat split.
Qed.

Lemma savestate_write_internal_log (st : state) (slot : Z) :
  settings_current (snd (savestate_write_internal slot st)) = settings_current st
  /\ exists added,
       calls (snd (savestate_write_internal slot st)) = (calls st ++ added)%list
       /\ Forall (fun c => ~ pause_call c) added.
Proof.
  split; [apply savestate_write_internal_settings|].
  unfold savestate_write_internal. run_monad.
  destruct (quicksave_get_filename st slot) as [filename|]; run_monad.
  2:{ exists []. split; [now rewrite app_nil_r|constructor]. }
  destruct (quicksave_create_dir_log st) as (_ & _ & _ & added & Hcalls & Hsetup).
  assert (Forall (fun c => ~ pause_call c) added) as Hadded.
  { rewrite Forall_forall in *. intros c Hc. apply setup_call_not_pause, Hsetup, Hc. }
  destruct (quicksave_create_dir st) as [failed st1]. cbn [snd] in Hcalls.
  destruct (negb (failed =? 0)); run_monad.
  - exists added. split; assumption.
  - destruct (snapshot_write filename (host_state st1)) as [error h].
    destruct (negb (error =? 0)); run_monad; cbn [snd calls];
      rewrite Hcalls, <- !app_assoc; eexists; (split; [reflexivity|]);
      (apply Forall_app; split; [exact Hadded|repeat constructor; simpl; tauto]).
Qed.

(** X12. [quicksave_save] pauses the emulation before anything else and
    resumes it after everything else, whether the save succeeds, fails,
    or cannot even start; nothing in between pauses or resumes; the
    settings stay as they were; and the result is that of the save of
    the default slot. *)
Theorem quicksave_save_brackets (st : state) :
  fst (quicksave_save st)
    = fst (savestate_write_internal (od_quicksave_slot (settings_current st))
             {| host_state := host_state st;
                settings_current := settings_current st;
                last_check_directory := last_check_directory st;
                last_check_directory_result := last_check_directory_result st;
                calls := calls st ++ [Call_fuse_emulation_pause] |})
  /\ settings_current (snd (quicksave_save st)) = settings_current st
  /\ exists between,
       calls (snd (quicksave_save st))
         = (calls st ++ Call_fuse_emulation_pause :: between
              ++ [Call_fuse_emulation_unpause])%list
       /\ Forall (fun c => ~ pause_call c) between.
Proof.
  unfold quicksave_save. run_monad. cbn [settings_current].
  match goal with
  | |- context [savestate_write_internal ?slot ?paused] =>
      destruct (savestate_write_internal_log paused slot)
        as (Hsettings & between & Hcalls & Hbetween);
      destruct (savestate_write_internal slot paused) as [error st1]
  end.
  cbn [fst snd calls settings_current] in *.
  split; [reflexivity|]. split; [exact Hsettings|].
  exists between. split; [|exact Hbetween].
  rewrite Hcalls, <- !app_assoc. reflexivity.
Qed.

Lemma quicksave_save_unresolved (st : state) :
  quicksave_get_current_dir st = None ->
  quicksave_save st =
    (1, {| host_state := host_state st;
           settings_current := settings_current st;
           last_check_directory := last_check_directory st;
           last_check_directory_result := last_check_directory_result st;
           calls := calls st ++ [Call_fuse_emulation_pause;
                                 Call_fuse_emulation_unpause] |}).
Proof.
  intros Hnone. unfold quicksave_save, savestate_write_internal. run_monad.
  match goal with
  | |- context [quicksave_get_filename ?paused ?slot] =>
      change (quicksave_get_filename paused slot)
        with (quicksave_get_filename st slot)
  end.
  unfold quicksave_get_filename. rewrite Hnone. run_monad.
  cbn [host_state settings_current last_check_directory
       last_check_directory_result calls].
  now rewrite <- app_assoc.
Qed.

(** X13. While no program is loaded or no configuration directory is
    available, nothing resolves and nothing is attempted: every slot is
    reported absent, the existence query answers 0 and leaves the cache
    alone, [quicksave_load] does nothing and returns 0,
    [quicksave_save] returns 1 having only paused and resumed the
    emulation, and the screen of every slot is black. *)
Theorem nothing_without_program (st : state) :
  last_filename (host_state st) = None
  \/ compat_get_config_path (host_state st) = None ->
  quicksave_get_current_dir st = None
  /\ (forall slot,
         quicksave_get_filename st slot = None
         /\ check_current_savestate_exist st slot = 0
         /\ buffer (snd (savestate_get_screen_for_slot st slot))
            = repeat x00 screen_size)
  /\ check_any_savestate_exist st = (0, st)
  /\ quicksave_load st = (0, st)
  /\ fst (quicksave_save st) = 1
  /\ host_state (snd (quicksave_save st)) = host_state st
  /\ calls (snd (quicksave_save st))
     = (calls st ++ [Call_fuse_emulation_pause; Call_fuse_emulation_unpause])%list.
Proof.
  intros Hnone. apply quicksave_get_current_dir_none in Hnone.
  assert (forall slot, quicksave_get_filename st slot = None) as Hname.
  { intros slot. unfold quicksave_get_filename. now rewrite Hnone. }
  split; [exact Hnone|]. split; [|split; [|split; [|split; [|split]]]].
  - intros slot. split; [apply Hname|]. split.
    + unfold check_current_savestate_exist. now rewrite Hname.
    + rewrite savestate_get_screen_for_slot_eq, Hname. reflexivity.
  - unfold check_any_savestate_exist. run_monad. now rewrite Hnone.
  - unfold quicksave_load. run_monad.
    unfold check_current_savestate_exist. now rewrite Hname.
  - rewrite (quicksave_save_unresolved st Hnone). reflexivity.
  - rewrite (quicksave_save_unresolved st Hnone). reflexivity.
  - rewrite (quicksave_save_unresolved st Hnone). reflexivity.
Qed.

End FurtherSaving.

Section FurtherQueries.

Context {P : platform}.

(** ** Scanning a directory *)

Lemma scan_directory_for_savestates_run
    (st : state) (dir : string) (check_fn : option string -> Z) :
  scan_directory_for_savestates (Some dir) check_fn st =
    (scan_value (compat_opendir (host_state st) dir) check_fn,
     {| host_state := host_state st;
        settings_current := settings_current st;
        last_check_directory := last_check_directory st;
        last_check_directory_result := last_check_directory_result st;
        calls := calls st ++
                 match compat_opendir (host_state st) dir with
                 | None => [Call_compat_opendir dir]
                 | Some _ => [Call_compat_opendir dir; Call_compat_closedir]
                 end |}).
Proof.
  unfold scan_directory_for_savestates, scan_value. run_monad.
  destruct (compat_opendir (host_state st) dir) as [d|]; run_monad; [|reflexivity].
  destruct (scan_loop check_fn (dir_items d)) as [found|]; run_monad;
    cbn [host_state settings_current last_check_directory
         last_check_directory_result calls];
    rewrite <- app_assoc.
  - destruct (compat_closedir d =? 0); reflexivity.
  - reflexivity.
Qed.

(** X14. [scan_directory_for_savestates] closes every directory it has
    opened - after a match, at the end of the entries and after a read
    error alike - and closes nothing when the directory did not open;
    it changes neither the host nor the settings nor the cache. *)
Theorem scan_directory_for_savestates_closes
    (st : state) (dir : string) (check_fn : option string -> Z) :
  calls (snd (scan_directory_for_savestates (Some dir) check_fn st))
    = (calls st ++
       match compat_opendir (host_state st) dir with
       | None => [Call_compat_opendir dir]
       | Some _ => [Call_compat_opendir dir; Call_compat_closedir]
       end)%list
  /\ host_state (snd (scan_directory_for_savestates (Some dir) check_fn st))
     = host_state st
  /\ settings_current (snd (scan_directory_for_savestates (Some dir) check_fn st))
     = settings_current st
  /\ last_check_directory (snd (scan_directory_for_savestates (Some dir) check_fn st))
     = last_check_directory st
  /\ last_check_directory_result
       (snd (scan_directory_for_savestates (Some dir) check_fn st))
     = last_check_directory_result st.
Proof.
  rewrite scan_directory_for_savestates_run. repeat split.
Qed.

Lemma scan_loop_names (check_fn : option string -> Z) (names : list string) :
  (scan_loop check_fn (map Dir_name names) = Some 1
   /\ exists name, In name names /\ check_fn (Some name) <> 0)
  \/ (scan_loop check_fn (map Dir_name names) = Some 0
      /\ forall name, In name names -> check_fn (Some name) = 0).
Proof.
  induction names as [|n names IH]; simpl.
  - right. split; [reflexivity|]. intros name [].
  - destruct (check_fn (Some n) =? 0) eqn:Hn; cbn [negb].
    + apply Z.eqb_eq in Hn. destruct IH as [[Hloop (name & Hin & Hname)]|[Hloop Hall]].
      * left. split; [exact Hloop|]. exists name. split; [now right|exact Hname].
      * right. split; [exact Hloop|]. intros name [<-|Hin]; [exact Hn|now apply Hall].
    + apply Z.eqb_neq in Hn. left. split; [reflexivity|].
      exists n. split; [now left|exact Hn].
Qed.

(** X15. When every entry of the directory is read without error and
    the directory closes without error, the scan returns 1 if some
    entry of the directory satisfies the predicate and 0 if none does,
    wherever in the enumeration the entries stand. *)
Theorem scan_directory_for_savestates_any_entry
    (st : state) (dir : string) (check_fn : option string -> Z)
    (d : compat_dir) (names : list string) :
  compat_opendir (host_state st) dir = Some d ->
  dir_items d = map Dir_name names ->
  compat_closedir d = 0 ->
  (fst (scan_directory_for_savestates (Some dir) check_fn st) = 1
   <-> exists name, In name names /\ check_fn (Some name) <> 0)
  /\ (fst (scan_directory_for_savestates (Some dir) check_fn st) = 0
      <-> forall name, In name names -> check_fn (Some name) = 0).
Proof.
  intros Hopen Hitems Hclose.
  rewrite scan_directory_for_savestates_run, Hopen. cbn [fst scan_value].
  rewrite Hitems, Hclose. change (0 =? 0) with true. cbv iota.
  destruct (scan_loop_names check_fn names)
    as [[Hloop (name & Hin & Hname)]|[Hloop Hall]]; rewrite Hloop.
  - split; split; intros H.
    + exists name. now split.
    + reflexivity.
    + discriminate H.
    + exfalso. apply Hname, H, Hin.
  - split; split; intros H.
    + discriminate H.
    + destruct H as (name & Hin & Hname). exfalso. apply Hname, Hall, Hin.
    + exact Hall.
    + reflexivity.
Qed.

(** ** The existence cache *)

Lemma check_any_savestate_exist_rescan (st : state) (dir : string) :
  quicksave_get_current_dir st = Some dir ->
  check_dir_exist st (Some dir) <> 0 ->
  last_check_directory st = Some dir ->
  last_check_directory_result st = 0 ->
  check_any_savestate_exist st =
    (scan_value (compat_opendir (host_state st) dir) (is_savestate_name st),
     {| host_state := host_state st;
        settings_current := settings_current st;
        last_check_directory := Some dir;
        last_check_directory_result :=
          scan_value (compat_opendir (host_state st) dir) (is_savestate_name st);
        calls := calls st ++
                 match compat_opendir (host_state st) dir with
                 | None => [Call_compat_opendir dir]
                 | Some _ => [Call_compat_opendir dir; Call_compat_closedir]
                 end |}).
Proof.
  intros Hdir Hstat Hlast Hresult.
  unfold check_any_savestate_exist. run_monad.
  rewrite Hdir. apply Z.eqb_neq in Hstat. rewrite Hstat. run_monad.
  rewrite Hlast, strcmp_refl, Hresult. change (0 =? 0) with true.
  cbn [negb]. cbv iota. run_monad.
  rewrite scan_directory_for_savestates_run. run_monad.
  cbn [host_state settings_current last_check_directory
       last_check_directory_result calls].
  rewrite Hlast. reflexivity.
Qed.

(** X16. A negative answer is not kept: when the resolved Save
    Directory is not reported missing by [stat], is the cached one, and
    the cached result is 0, every query opens and scans the directory
    again, returns what the scan returns and stores it as the cached
    result. *)
Theorem check_any_savestate_exist_negative_not_cached (st : state) (dir : string) :
  quicksave_get_current_dir st = Some dir ->
  check_dir_exist st (Some dir) <> 0 ->
  last_check_directory st = Some dir ->
  last_check_directory_result st = 0 ->
  fst (check_any_savestate_exist st)
    = fst (scan_directory_for_savestates (Some dir) (is_savestate_name st) st)
  /\ last_check_directory_result (snd (check_any_savestate_exist st))
     = fst (check_any_savestate_exist st)
  /\ calls (snd (check_any_savestate_exist st))
     = calls (snd (scan_directory_for_savestates (Some dir)
                     (is_savestate_name st) st)).
Proof.
  intros Hdir Hstat Hlast Hresult.
  rewrite (check_any_savestate_exist_rescan st dir Hdir Hstat Hlast Hresult).
  rewrite scan_directory_for_savestates_run. repeat split.
Qed.

(** X17. After a change of directory the answer comes one query late:
    when the resolved Save Directory exists and differs from the cached
    one, the query that follows the resetting one returns what a scan
    of the directory returns. *)
Theorem check_any_savestate_exist_second_query (st : state) (dir : string) :
  quicksave_get_current_dir st = Some dir ->
  check_dir_exist st (Some dir) <> 0 ->
  match last_check_directory st with
  | None => True
  | Some last => CStr.strcmp dir last <> 0
  end ->
  fst (check_any_savestate_exist st) = 0
  /\ fst (check_any_savestate_exist (snd (check_any_savestate_exist st)))
     = fst (scan_directory_for_savestates (Some dir) (is_savestate_name st) st).
Proof.
  intros Hdir Hstat Hlast.
  rewrite (check_any_savestate_exist_reset st dir Hdir Hstat Hlast).
  cbn [fst snd]. split; [reflexivity|].
  rewrite check_any_savestate_exist_rescan with (dir := dir);
    try reflexivity; try assumption.
  rewrite scan_directory_for_savestates_run. reflexivity.
Qed.

(** X18. [check_any_savestate_exist] never changes the host or the
    settings and calls nothing but [compat_opendir] and
    [compat_closedir]; when the Save Directory does not resolve or
    [stat] reports it missing it returns 0 and leaves the cache as it
    was; in every other case the cache afterwards names the resolved
    directory and holds the value returned. *)
Theorem check_any_savestate_exist_cache (st : state) :
  host_state (snd (check_any_savestate_exist st)) = host_state st
  /\ settings_current (snd (check_any_savestate_exist st)) = settings_current st
  /\ (exists added,
        calls (snd (check_any_savestate_exist st)) = (calls st ++ added)%list
        /\ Forall directory_call added)
  /\ match quicksave_get_current_dir st with
     | None => check_any_savestate_exist st = (0, st)
     | Some dir =>
         if check_dir_exist st (Some dir) =? 0
         then check_any_savestate_exist st = (0, st)
         else
           fst (check_any_savestate_exist st)
             = last_check_directory_result (snd (check_any_savestate_exist st))
           /\ exists cached,
                last_check_directory (snd (check_any_savestate_exist st)) = Some cached
                /\ CStr.strcmp dir cached = 0
     end.
Proof.
  unfold check_any_savestate_exist. run_monad.
  destruct (quicksave_get_current_dir st) as [dir|]; run_monad.
  2:{ repeat split. exists []. split; [now rewrite app_nil_r|constructor]. }
  destruct (check_dir_exist st (Some dir) =? 0); run_monad.
  { repeat split. exists []. split; [now rewrite app_nil_r|constructor]. }
  destruct (last_check_directory st) as [last|] eqn:Hlast.
  - destruct (CStr.strcmp dir last =? 0) eqn:Hsame; cbn [negb]; run_monad.
    + destruct (last_check_directory_result st =? 0); run_monad.
      * rewrite scan_directory_for_savestates_run. run_monad.
        cbn [fst snd host_state settings_current last_check_directory
             last_check_directory_result calls].
        repeat split.
        -- eexists. split; [reflexivity|].
           destruct (compat_opendir (host_state st) dir); repeat constructor.
        -- exists last. split; [exact Hlast|now apply Z.eqb_eq].
      * cbn [fst snd]. repeat split.
        -- exists []. split; [now rewrite app_nil_r|constructor].
        -- exists last. split; [exact Hlast|now apply Z.eqb_eq].
    + cbn [fst snd host_state settings_current last_check_directory
           last_check_directory_result calls].
      repeat split.
      * exists []. split; [now rewrite app_nil_r|constructor].
      * exists dir. split; [reflexivity|apply strcmp_refl].
  - run_monad.
    cbn [fst snd host_state settings_current last_check_directory
         last_check_directory_result calls].
    repeat split.
    + exists []. split; [now rewrite app_nil_r|constructor].
    + exists dir. split; [reflexivity|apply strcmp_refl].
Qed.

End FurtherQueries.

Section FurtherScreen.

Context {P : platform}.

(** ** The result of the screen extraction *)

(** X19. The value [savestate_get_screen_for_slot] returns: 1 when the
    path of the slot does not resolve or the file does not exist; the
    error of [utils_read_file] when reading fails (nothing is parsed
    then); the error of [libspectrum_snap_read] when parsing fails; and
    otherwise the value of [libspectrum_snap_free], in which case the
    screen has been copied even if that value is an error. *)
Theorem savestate_get_screen_for_slot_result (st : state) (slot : Z) :
  match quicksave_get_filename st slot with
  | None => fst (savestate_get_screen_for_slot st slot) = 1
  | Some filename =>
      if compat_file_exists (host_state st) filename
      then
        let read := utils_read_file (host_state st) filename in
        let parsed := libspectrum_snap_read libspectrum_snap_alloc (snd read) filename in
        if fst read =? 0
        then
          if fst parsed =? 0
          then fst (savestate_get_screen_for_slot st slot)
                 = libspectrum_snap_free (snd parsed)
               /\ buffer (snd (savestate_get_screen_for_slot st slot))
                  = map (libspectrum_snap_pages (snd parsed)
                           (display_page (snd parsed)))
                      (seq 0 screen_size)
          else fst (savestate_get_screen_for_slot st slot) = fst parsed
        else fst (savestate_get_screen_for_slot st slot) = fst read
      else fst (savestate_get_screen_for_slot st slot) = 1
  end.
Proof.
  rewrite savestate_get_screen_for_slot_eq. unfold savetate_read_snapshot.
  destruct (quicksave_get_filename st slot) as [filename|]; [|reflexivity].
  destruct (compat_file_exists (host_state st) filename); cbn [negb]; [|reflexivity].
  cbv zeta.
  destruct (utils_read_file (host_state st) filename) as [error bytes]. cbn [fst snd].
  destruct (error =? 0) eqn:Herror; cbn [negb].
  - destruct (libspectrum_snap_read libspectrum_snap_alloc bytes filename)
      as [parse_error snap]. cbn [fst snd].
    destruct (parse_error =? 0) eqn:Hparse; cbn [negb]; [|reflexivity].
    destruct (libspectrum_snap_free snap =? 0) eqn:Hfree; cbn [negb fst snd buffer].
    + apply Z.eqb_eq in Hfree. now rewrite Hfree.
    + split; reflexivity.
  - rewrite Herror. reflexivity.
Qed.

(** ** The label of a slot *)

Lemma substring_0_length (n : nat) (s : string) :
  String.length (substring 0 n s) = Nat.min n (String.length s).
Proof.
  revert n. induction s as [|c s IH]; intros [|n]; simpl; try reflexivity.
  now rewrite IH.
Qed.

Lemma substring_0_substring_0 (m n : nat) (s : string) :
  (m <= n)%nat -> substring 0 m (substring 0 n s) = substring 0 m s.
Proof.
  revert m n. induction s as [|c s IH]; intros [|m] [|n] Hle; simpl;
    try reflexivity; try lia.
  f_equal. apply IH. lia.
Qed.

Lemma substring_0_all (n : nat) (s : string) :
  (String.length s <= n)%nat -> substring 0 n s = s.
Proof.
  revert n. induction s as [|c s IH]; intros [|n] Hle; simpl in *;
    try reflexivity; try lia.
  f_equal. apply IH. lia.
Qed.

(** X20. When a program is loaded and the base name of the slot's file
    can be had, there is a label; it never has more than 19
    characters; with a Program Identity of at most 15 characters and a
    base name of at most two it is the base name, a colon, a space and
    the identity, in full; with a longer identity it has exactly 19
    characters, the first 18 of that text and the mark ">". *)
Theorem quicksave_get_label_shape (st : state) (slot : Z) (program filename : string) :
  quicksave_get_current_program st = Some program ->
  utils_last_filename (quicksave_get_filename st slot) 1 = Some filename ->
  exists label,
    quicksave_get_label st slot = Some label
    /\ (String.length label <= 19)%nat
    /\ ((String.length program <= 15)%nat ->
        (String.length filename <= 2)%nat ->
        label = filename ++ ": " ++ program)
    /\ ((15 < String.length program)%nat ->
        String.length label = 19%nat
        /\ label = substring 0 18 (filename ++ ": " ++ program) ++ ">").
Proof.
  intros Hprogram Hfilename. unfold quicksave_get_label.
  rewrite Hprogram, Hfilename. cbv zeta. unfold CStr.snprintf.
  change (20 - 1)%nat with 19%nat.
  assert (String.length (filename ++ ": " ++ program)
          = (String.length filename + 2 + String.length program)%nat) as Hlength.
  { rewrite !length_append. cbn [String.length]. lia. }
  destruct (15 <? String.length program)%nat eqn:Hlong.
  - apply Nat.ltb_lt in Hlong. eexists. split; [reflexivity|].
    unfold store_mark. rewrite substring_0_length.
    assert ((18 <=? Nat.min 19 (String.length (filename ++ ": " ++ program)))%nat
            = true) as Hreach by (apply Nat.leb_le; lia).
    rewrite Hreach, substring_0_substring_0 by lia.
    assert (String.length (substring 0 18 (filename ++ ": " ++ program) ++ ">") = 19%nat)
      as Hnineteen.
    { rewrite length_append, substring_0_length. cbn [String.length]. lia. }
    repeat split; try lia.
  - apply Nat.ltb_ge in Hlong. eexists. split; [reflexivity|].
    split; [rewrite substring_0_length; lia|]. split.
    + intros _ Hshort. apply substring_0_all. lia.
    + intros Hcontra. lia.
Qed.

End FurtherScreen.

(* ================================================================= *)
(** * The further properties on the small hosts *)

Section FurtherOnDemoHost.

#[local] Existing Instance Demo.demo_platform.

Import Demo MoreDemo.

Lemma dotted_szx : dotted_extension ".szx".
Proof. exists "s"%char, "z"%char, "x"%char. repeat split; discriminate. Qed.

(** The path of slot 7 of "Game" is far below the limit. *)
Lemma resolved_paths_below_PATH_MAX_witness :
  (String.length "/cfg/savestates/Game/07.szx" < PATH_MAX)%nat.
Proof.
  apply (proj2 (resolved_paths_below_PATH_MAX unqueried_state) 7).
  vm_compute. reflexivity.
Defined.

(** Slots 7 and 8 of "Game" have different files. *)
Lemma quicksave_get_filename_distinct_slots_witness :
  quicksave_get_filename unqueried_state 7 <> quicksave_get_filename unqueried_state 8.
Proof.
  apply (quicksave_get_filename_distinct_slots unqueried_state 7 8 save_dir).
  - lia.
  - lia.
  - vm_compute. reflexivity.
  - vm_compute. lia.
  - lia.
Defined.

(** "Game" and "The Great Escape 128" have different directories. *)
Lemma quicksave_get_current_dir_distinct_programs_witness :
  quicksave_get_current_dir unqueried_state <> quicksave_get_current_dir long_name_state.
Proof.
  apply (quicksave_get_current_dir_distinct_programs unqueried_state long_name_state
           "/cfg" "Game" "The Great Escape 128").
  - reflexivity.
  - reflexivity.
  - reflexivity.
  - reflexivity.
  - vm_compute. reflexivity.
  - vm_compute. reflexivity.
  - vm_compute. lia.
  - vm_compute. lia.
  - discriminate.
Defined.

(** "07.szx" is accepted, so it has six characters and two digits. *)
Lemma is_savestate_name_accepts_only_witness :
  exists filename extension,
    utils_last_filename (Some "/cfg/savestates/Game/07.szx") 0 = Some filename
    /\ String.length filename = 6%nat
    /\ CStr.isdigit (char_at filename 0) = true
    /\ CStr.isdigit (char_at filename 1) = true
    /\ CStr.strrchr filename "." = Some extension
    /\ CStr.strncmp extension ".szx" 4 = 0.
Proof.
  apply (proj2 (is_savestate_name_accepts_only unqueried_state
                  (Some "/cfg/savestates/Game/07.szx"))).
  vm_compute. reflexivity.
Defined.

(** The file of slot 7 is recognised, the file of slot 100 is not. *)
Lemma is_savestate_name_own_file_witness :
  is_savestate_name unqueried_state (Some "/cfg/savestates/Game/07.szx") = 1
  /\ is_savestate_name unqueried_state (Some "/cfg/savestates/Game/100.szx") <> 1.
Proof.
  split.
  - apply (is_savestate_name_own_file unqueried_state
             "/cfg/savestates/Game/07.szx" 7 dotted_szx).
    + vm_compute. reflexivity.
    + lia.
  - intros Haccepted.
    apply (is_savestate_name_own_file unqueried_state
             "/cfg/savestates/Game/100.szx" 100 dotted_szx) in Haccepted.
    + lia.
    + vm_compute. reflexivity.
Defined.

(** Loading slot 0 of "Game", with success and with the error 5. *)
Lemma quicksave_load_existing_slot_witness :
  fst (quicksave_load saved_state) = 0
  /\ calls (snd (quicksave_load saved_state))
     = [Call_fuse_emulation_pause;
        Call_utils_open_file "/cfg/savestates/Game/00.szx" 9;
        Call_ui_widget_show_msg_update_info "Loaded slot 00";
        Call_display_refresh_all;
        Call_fuse_emulation_unpause]
  /\ fst (quicksave_load unloadable_state) = 5
  /\ calls (snd (quicksave_load unloadable_state))
     = [Call_fuse_emulation_pause;
        Call_utils_open_file "/cfg/savestates/Game/00.szx" 9;
        Call_ui_error "Error loading state from slot 00";
        Call_display_refresh_all;
        Call_fuse_emulation_unpause].
Proof.
  assert (quicksave_get_filename saved_state 0 = Some "/cfg/savestates/Game/00.szx")
    as Hsaved by (vm_compute; reflexivity).
  assert (quicksave_get_filename unloadable_state 0 = Some "/cfg/savestates/Game/00.szx")
    as Hunloadable by (vm_compute; reflexivity).
  rewrite (quicksave_load_existing_slot saved_state
             "/cfg/savestates/Game/00.szx" Hsaved eq_refl).
  rewrite (quicksave_load_existing_slot unloadable_state
             "/cfg/savestates/Game/00.szx" Hunloadable eq_refl).
  repeat split.
Defined.

(** Reading slot 0 of "Game" by its own path. *)
Lemma savestate_read_own_path_witness :
  od_quicksave_slot
    (settings_current
       (snd (savestate_read (Some "/cfg/savestates/Game/00.szx") saved_state))) = 0
  /\ calls (snd (savestate_read (Some "/cfg/savestates/Game/00.szx") saved_state))
     = [Call_utils_open_file "/cfg/savestates/Game/00.szx" 9;
        Call_ui_widget_show_msg_update_info "Loaded slot 00"].
Proof.
  assert (quicksave_get_filename saved_state 0 = Some "/cfg/savestates/Game/00.szx")
    as Hsaved by (vm_compute; reflexivity).
  assert (0 <= 0 <= 99) as Hslot by lia.
  destruct (savestate_read_own_path saved_state 0 "/cfg/savestates/Game/00.szx"
              Hslot Hsaved eq_refl) as (Hdefault & Hopened & _).
  split; [exact Hdefault|].
  exact (proj2 (Hopened eq_refl)).
Defined.

(** Slot 7 of "Game" has no file: the check says so, and reading it by
    name returns 1 and leaves 7 as the default slot. *)
Lemma savestate_read_after_check_witness :
  exists base,
    utils_last_filename (Some "/saves/07.szx") 1 = Some base
    /\ savestate_read (Some "/saves/07.szx") unqueried_state
       = (1, with_slot unqueried_state (CStr.atoi base)).
Proof.
  assert (check_current_savestate_exist_savename unqueried_state (Some "/saves/07.szx")
          = Some 0) as Hcheck by (vm_compute; reflexivity).
  destruct (savestate_read_after_check unqueried_state "/saves/07.szx" 0 Hcheck)
    as (base & Hbase & Hmissing & _).
  exists base. split; [exact Hbase|exact (Hmissing eq_refl)].
Defined.

(** Saving slot 1 of "Game", whose directory exists. *)
Lemma savestate_write_internal_existing_directory_witness :
  fst (savestate_write_internal 1 unqueried_state) = 0
  /\ calls (snd (savestate_write_internal 1 unqueried_state))
     = [Call_snapshot_write "/cfg/savestates/Game/01.szx";
        Call_ui_widget_show_msg_update_info "Saved to slot 01"].
Proof.
  assert (quicksave_get_current_dir unqueried_state = Some save_dir)
    as Hdir by (vm_compute; reflexivity).
  assert (quicksave_get_filename unqueried_state 1 = Some "/cfg/savestates/Game/01.szx")
    as Hname by (vm_compute; reflexivity).
  rewrite (savestate_write_internal_existing_directory unqueried_state 1
             save_dir "/cfg/savestates/Game/01.szx" Hdir eq_refl Hname).
  split; reflexivity.
Defined.

(** Saving slot 1 of "Game" when its directory has to be made first. *)
Lemma savestate_write_internal_missing_directory_witness :
  fst (savestate_write_internal 1 removed_state) = 0
  /\ calls (snd (savestate_write_internal 1 removed_state))
     = [Call_compat_createdir save_dir;
        Call_snapshot_write "/cfg/savestates/Game/01.szx";
        Call_ui_widget_show_msg_update_info "Saved to slot 01"].
Proof.
  assert (quicksave_get_current_dir removed_state = Some save_dir)
    as Hdir by (vm_compute; reflexivity).
  assert (quicksave_get_filename removed_state 1 = Some "/cfg/savestates/Game/01.szx")
    as Hname by (vm_compute; reflexivity).
  destruct (savestate_write_internal_missing_directory removed_state 1
              save_dir "/cfg/savestates/Game/01.szx" Hdir eq_refl Hname)
    as [_ Hmade].
  assert (fst (compat_createdir save_dir (host_state removed_state)) <> -1)
    as Hcreated by (vm_compute; discriminate).
  destruct (Hmade Hcreated) as (Hresult & _ & Hcalls).
  split; [exact Hresult|exact Hcalls].
Defined.

(** With no program loaded nothing is to be had. *)
Lemma nothing_without_program_witness :
  check_any_savestate_exist idle_state = (0, idle_state)
  /\ quicksave_load idle_state = (0, idle_state)
  /\ fst (quicksave_save idle_state) = 1
  /\ calls (snd (quicksave_save idle_state))
     = [Call_fuse_emulation_pause; Call_fuse_emulation_unpause].
Proof.
  assert (last_filename (host_state idle_state) = None
          \/ compat_get_config_path (host_state idle_state) = None)
    as Hidle by (left; reflexivity).
  destruct (nothing_without_program idle_state Hidle)
    as (_ & _ & Hany & Hload & Hsave & _ & Hcalls).
  repeat split; assumption.
Defined.

(** A scan of the directory of "Game" finds "00.szx" behind "." and
    "..". *)
Lemma scan_directory_for_savestates_any_entry_witness :
  fst (scan_directory_for_savestates (Some save_dir)
         (is_savestate_name unqueried_state) unqueried_state) = 1.
Proof.
  apply (scan_directory_for_savestates_any_entry unqueried_state save_dir
           (is_savestate_name unqueried_state) one_save ["."; ".."; "00.szx"]
           eq_refl eq_refl eq_refl).
  exists "00.szx". split.
  - right. right. left. reflexivity.
  - vm_compute. discriminate.
Defined.

(** The directory of "Game" was found empty before and now has a save:
    the next query finds it. *)
Lemma check_any_savestate_exist_negative_not_cached_witness :
  fst (check_any_savestate_exist queried_state) = 1
  /\ last_check_directory_result (snd (check_any_savestate_exist queried_state)) = 1.
Proof.
  assert (quicksave_get_current_dir queried_state = Some save_dir)
    as Hdir by (vm_compute; reflexivity).
  assert (check_dir_exist queried_state (Some save_dir) <> 0)
    as Hstat by (vm_compute; discriminate).
  destruct (check_any_savestate_exist_negative_not_cached queried_state save_dir
              Hdir Hstat eq_refl eq_refl) as (Hresult & Hcached & _).
  rewrite Hcached, Hresult. split; vm_compute; reflexivity.
Defined.

(** The directory of "Game" is new to the cache: the first query
    answers 0, the second 1. *)
Lemma check_any_savestate_exist_second_query_witness :
  fst (check_any_savestate_exist unqueried_state) = 0
  /\ fst (check_any_savestate_exist (snd (check_any_savestate_exist unqueried_state)))
     = 1.
Proof.
  assert (quicksave_get_current_dir unqueried_state = Some save_dir)
    as Hdir by (vm_compute; reflexivity).
  assert (check_dir_exist unqueried_state (Some save_dir) <> 0)
    as Hstat by (vm_compute; discriminate).
  destruct (check_any_savestate_exist_second_query unqueried_state save_dir
              Hdir Hstat I) as [Hfirst Hsecond].
  split; [exact Hfirst|].
  rewrite Hsecond. vm_compute. reflexivity.
Defined.

(** The labels of slot 7 of "Game" and of "The Great Escape 128". *)
Lemma quicksave_get_label_shape_witness :
  quicksave_get_label unqueried_state 7 = Some "07: Game"
  /\ quicksave_get_label long_name_state 7 = Some "07: The Great Esca>".
Proof.
  assert (quicksave_get_current_program unqueried_state = Some "Game")
    as Hgame by (vm_compute; reflexivity).
  assert (utils_last_filename (quicksave_get_filename unqueried_state 7) 1 = Some "07")
    as Hseven by (vm_compute; reflexivity).
  assert (quicksave_get_current_program long_name_state = Some "The Great Escape 128")
    as Hescape by (vm_compute; reflexivity).
  assert (utils_last_filename (quicksave_get_filename long_name_state 7) 1 = Some "07")
    as Hseven' by (vm_compute; reflexivity).
  destruct (quicksave_get_label_shape unqueried_state 7 "Game" "07" Hgame Hseven)
    as (label & Hlabel & _ & Hshort & _).
  destruct (quicksave_get_label_shape long_name_state 7 "The Great Escape 128" "07"
              Hescape Hseven')
    as (label' & Hlabel' & _ & _ & Hlong).
  rewrite Hlabel, Hlabel'. split; f_equal.
  - apply Hshort; vm_compute; lia.
  - apply Hlong. vm_compute. lia.
Defined.

End FurtherOnDemoHost.

Section FurtherOnReadOnlyHost.

#[local] Existing Instance MoreDemo.readonly_platform.

Import Demo MoreDemo.

(** On the host that cannot make directories, saving slot 0 returns 1
    after one attempt and one error message, and writes nothing. *)
Lemma savestate_write_internal_unprepared_witness :
  savestate_write_internal 0 readonly_state
  = (1, snd (quicksave_create_dir readonly_state))
  /\ calls (snd (savestate_write_internal 0 readonly_state))
     = [Call_compat_createdir save_dir;
        Call_ui_error "error creating savestate directory '/cfg/savestates/Game'"].
Proof.
  assert (fst (quicksave_create_dir readonly_state) <> 0)
    as Hfailed by (vm_compute; discriminate).
  destruct (savestate_write_internal_unprepared readonly_state 0 Hfailed)
    as [Hwrite _].
  split; [exact Hwrite|].
  rewrite Hwrite. vm_compute. reflexivity.
Defined.

(** On that host the snapshot of slot 0 is read and shown, and the
    error of freeing it is the result. *)
Example savestate_get_screen_for_slot_unfreeable :
  fst (savestate_get_screen_for_slot unfreeable_state 0) = 7
  /\ buffer (snd (savestate_get_screen_for_slot unfreeable_state 0))
     = map (demo_page 5) (seq 0 screen_size).
Proof. vm_compute. split; reflexivity. Qed.

End FurtherOnReadOnlyHost.
